(** * Neon Drift (game-101-capstone/script.js): simulation core

    A shallow embedding of the game's JavaScript state and of the functions
    that update it, followed by the properties of the simulation core.

    Conventions of the embedding.
    - JavaScript numbers that hold measurements (positions, velocities,
      times in milliseconds, speeds) are exact rationals [Q]; binary64
      rounding is outside the model.  Counters that only ever hold integers
      (score, lives, combo, level, best, nextLevelAt) are [Z].
    - [Math.sqrt] and [Math.random] are platform primitives: they are the
      fields of the class [Platform], and every theorem holds for whatever
      they return.
      [Math.random] is the sequence of its successive results; the state
      counts how many have been drawn.
    - The single mutable [state] object is a record passed explicitly.
      DOM writes, announcements, beeps and localStorage writes do not feed
      back into [state] and are left out. *)

From Stdlib Require Import String QArith Qminmax Qround ZArith List Bool Lia Lqa.
Import ListNotations.
Open Scope Q_scope.

(* ------------------------------------------------------------------ *)
(** ** Utility: clamp, rand, distSq, aabbCollide *)

Definition Qltb (a b : Q) : bool := negb (Qle_bool b a).
Definition Qgeb (a b : Q) : bool := Qle_bool b a.

(** [a || b] on numbers: [b] when [a] is zero. *)
Definition orElse (a b : Q) : Q := if Qeq_bool a 0 then b else a.

Definition Math_max (a b : Q) : Q := Qmax a b.
Definition Math_min (a b : Q) : Q := Qmin a b.
Definition Math_floor (a : Q) : Z := Qfloor a.

Definition clamp (value min max : Q) : Q :=
  Math_max min (Math_min max value).

(** [rand(min, max)] given the result [r] of [Math.random()]. *)
Definition rand (r min max : Q) : Q := r * (max - min) + min.

Definition distSq (ax ay bx by_ : Q) : Q :=
  let dx := ax - bx in
  let dy := ay - by_ in
  dx * dx + dy * dy.

Definition aabbCollide (ax ay as_ bx by_ bs : Q) : bool :=
  negb (Qltb (ax + as_) bx
        || Qltb (bx + bs) ax
        || Qltb (ay + as_) by_
        || Qltb (by_ + bs) ay).

(* ------------------------------------------------------------------ *)
(** ** State (single source of truth) *)

Inductive Phase := start | play | pause | settings | over | how.

Definition Phase_eqb (a b : Phase) : bool :=
  match a, b with
  | start, start | play, play | pause, pause
  | settings, settings | over, over | how, how => true
  | _, _ => false
  end.

Inductive EnemyType := normal | fast | heavy.

Definition EnemyType_eqb (a b : EnemyType) : bool :=
  match a, b with
  | normal, normal | fast, fast | heavy, heavy => true
  | _, _ => false
  end.

Record Dash := mkDash {
  dash_ready : bool;
  dash_cooldownMs : Q;
  dash_burst : Q;
  dash_lastDashAt : Q }.

Record Player := mkPlayer {
  p_x : Q; p_y : Q;
  p_vx : Q; p_vy : Q;
  p_size : Q;
  p_speed : Q;
  p_maxSpeed : Q;
  p_friction : Q;
  p_dash : Dash }.

Record Orb := mkOrb { o_x : Q; o_y : Q; o_size : Q }.

Record Enemy := mkEnemy {
  e_active : bool;
  e_x : Q; e_y : Q;
  e_vx : Q; e_vy : Q;
  e_size : Q;
  e_type : EnemyType }.

Record Difficulty := mkDifficulty {
  level : Z;
  score : Z;
  lives : Z;
  combo : Z;
  best : Z;
  spawnIntervalMs : Q;
  lastSpawnAt : Q;
  enemyBaseSpeed : Q;
  nextLevelAt : Z }.

Record Input := mkInput {
  i_up : bool; i_down : bool; i_left : bool; i_right : bool;
  i_dash : bool;
  i_mouseX : Q; i_mouseY : Q;
  i_hasMouse : bool }.

Record Settings := mkSettings {
  sound : bool;
  reducedMotion : bool;
  mouseFollow : bool }.

Record Bounds := mkBounds { b_w : Q; b_h : Q }.

Record Time := mkTime { lastFrame : Q }.

Record State := mkState {
  phase : Phase;
  running : bool;
  bounds : Bounds;
  player : Player;
  orb : Orb;
  enemies : list Enemy;
  enemyPoolSize : nat;
  difficulty : Difficulty;
  input : Input;
  settings_ : Settings;
  time : Time;
  drawn : nat  (* number of Math.random() results consumed so far *) }.

(** The literal [state] object of the script, before [init] runs. *)
Definition state0 : State :=
  {| phase := start;
     running := false;
     bounds := mkBounds 0 0;
     player := mkPlayer 200 200 0 0 24 0.55 5.2 0.88 (mkDash true 900 9.0 0);
     orb := mkOrb 320 180 18;
     enemies := [];
     enemyPoolSize := 22;
     difficulty := mkDifficulty 1 0 3 0 0 950 0 1.7 200;
     input := mkInput false false false false false 0 0 false;
     settings_ := mkSettings true false false;
     time := mkTime 0;
     drawn := 0 |}.

(** Field writes. *)
Definition with_phase (v : Phase) (s : State) : State :=
  mkState v (running s) (bounds s) (player s) (orb s) (enemies s)
    (enemyPoolSize s) (difficulty s) (input s) (settings_ s) (time s) (drawn s).
Definition with_running (v : bool) (s : State) : State :=
  mkState (phase s) v (bounds s) (player s) (orb s) (enemies s)
    (enemyPoolSize s) (difficulty s) (input s) (settings_ s) (time s) (drawn s).
Definition with_bounds (v : Bounds) (s : State) : State :=
  mkState (phase s) (running s) v (player s) (orb s) (enemies s)
    (enemyPoolSize s) (difficulty s) (input s) (settings_ s) (time s) (drawn s).
Definition with_player (v : Player) (s : State) : State :=
  mkState (phase s) (running s) (bounds s) v (orb s) (enemies s)
    (enemyPoolSize s) (difficulty s) (input s) (settings_ s) (time s) (drawn s).
Definition with_orb (v : Orb) (s : State) : State :=
  mkState (phase s) (running s) (bounds s) (player s) v (enemies s)
    (enemyPoolSize s) (difficulty s) (input s) (settings_ s) (time s) (drawn s).
Definition with_enemies (v : list Enemy) (s : State) : State :=
  mkState (phase s) (running s) (bounds s) (player s) (orb s) v
    (enemyPoolSize s) (difficulty s) (input s) (settings_ s) (time s) (drawn s).
Definition with_difficulty (v : Difficulty) (s : State) : State :=
  mkState (phase s) (running s) (bounds s) (player s) (orb s) (enemies s)
    (enemyPoolSize s) v (input s) (settings_ s) (time s) (drawn s).
Definition with_input (v : Input) (s : State) : State :=
  mkState (phase s) (running s) (bounds s) (player s) (orb s) (enemies s)
    (enemyPoolSize s) (difficulty s) v (settings_ s) (time s) (drawn s).
Definition with_settings (v : Settings) (s : State) : State :=
  mkState (phase s) (running s) (bounds s) (player s) (orb s) (enemies s)
    (enemyPoolSize s) (difficulty s) (input s) v (time s) (drawn s).
Definition with_time (v : Time) (s : State) : State :=
  mkState (phase s) (running s) (bounds s) (player s) (orb s) (enemies s)
    (enemyPoolSize s) (difficulty s) (input s) (settings_ s) v (drawn s).
Definition with_drawn (v : nat) (s : State) : State :=
  mkState (phase s) (running s) (bounds s) (player s) (orb s) (enemies s)
    (enemyPoolSize s) (difficulty s) (input s) (settings_ s) (time s) v.

Definition with_velocity (vx vy : Q) (p : Player) : Player :=
  mkPlayer (p_x p) (p_y p) vx vy (p_size p) (p_speed p) (p_maxSpeed p)
    (p_friction p) (p_dash p).
Definition with_position (x y : Q) (p : Player) : Player :=
  mkPlayer x y (p_vx p) (p_vy p) (p_size p) (p_speed p) (p_maxSpeed p)
    (p_friction p) (p_dash p).
Definition with_dash (d : Dash) (p : Player) : Player :=
  mkPlayer (p_x p) (p_y p) (p_vx p) (p_vy p) (p_size p) (p_speed p)
    (p_maxSpeed p) (p_friction p) d.
Definition with_lastDashAt (t : Q) (d : Dash) : Dash :=
  mkDash (dash_ready d) (dash_cooldownMs d) (dash_burst d) t.
Definition with_orb_position (x y : Q) (o : Orb) : Orb :=
  mkOrb x y (o_size o).
Definition with_i_dash (v : bool) (i : Input) : Input :=
  mkInput (i_up i) (i_down i) (i_left i) (i_right i) v
    (i_mouseX i) (i_mouseY i) (i_hasMouse i).

Definition with_score (v : Z) (d : Difficulty) : Difficulty :=
  mkDifficulty (level d) v (lives d) (combo d) (best d) (spawnIntervalMs d)
    (lastSpawnAt d) (enemyBaseSpeed d) (nextLevelAt d).
Definition with_lives (v : Z) (d : Difficulty) : Difficulty :=
  mkDifficulty (level d) (score d) v (combo d) (best d) (spawnIntervalMs d)
    (lastSpawnAt d) (enemyBaseSpeed d) (nextLevelAt d).
Definition with_combo (v : Z) (d : Difficulty) : Difficulty :=
  mkDifficulty (level d) (score d) (lives d) v (best d) (spawnIntervalMs d)
    (lastSpawnAt d) (enemyBaseSpeed d) (nextLevelAt d).
Definition with_best (v : Z) (d : Difficulty) : Difficulty :=
  mkDifficulty (level d) (score d) (lives d) (combo d) v (spawnIntervalMs d)
    (lastSpawnAt d) (enemyBaseSpeed d) (nextLevelAt d).
Definition with_lastSpawnAt (v : Q) (d : Difficulty) : Difficulty :=
  mkDifficulty (level d) (score d) (lives d) (combo d) (best d)
    (spawnIntervalMs d) v (enemyBaseSpeed d) (nextLevelAt d).

Definition with_e_active (v : bool) (e : Enemy) : Enemy :=
  mkEnemy v (e_x e) (e_y e) (e_vx e) (e_vy e) (e_size e) (e_type e).
Definition with_e_position (x y : Q) (e : Enemy) : Enemy :=
  mkEnemy (e_active e) x y (e_vx e) (e_vy e) (e_size e) (e_type e).
Definition with_e_velocity (vx vy : Q) (e : Enemy) : Enemy :=
  mkEnemy (e_active e) (e_x e) (e_y e) vx vy (e_size e) (e_type e).
Definition with_e_kind (t : EnemyType) (sz : Q) (e : Enemy) : Enemy :=
  mkEnemy (e_active e) (e_x e) (e_y e) (e_vx e) (e_vy e) sz t.

(* ------------------------------------------------------------------ *)
(** ** Enemy pool *)

(** The slot pushed by [initEnemyPool] (its DOM element left out). *)
Definition blankEnemy : Enemy := mkEnemy false (-999) (-999) 0 0 18 normal.

Definition initEnemyPool (s : State) : State :=
  with_enemies (repeat blankEnemy (enemyPoolSize s)) s.

Definition inactive (e : Enemy) : bool := negb (e_active e).

(** Number of slots whose [active] flag is set. *)
Definition activeCount (es : list Enemy) : nat :=
  length (filter e_active es).

(** Write [e'] over the first inactive slot: [find] returns a reference to
    that slot and the caller mutates it in place. *)
Fixpoint writeFirstInactive (e' : Enemy) (es : list Enemy) : list Enemy :=
  match es with
  | [] => []
  | e :: rest =>
      if inactive e then e' :: rest else e :: writeFirstInactive e' rest
  end.

(* ------------------------------------------------------------------ *)
(** ** Difficulty scaling *)

Definition scaleDifficultyOnScore (s : State) : State :=
  let d := difficulty s in
  if (nextLevelAt d <=? score d)%Z then
    with_difficulty
      (mkDifficulty
         (level d + 1)
         (score d) (lives d) (combo d) (best d)
         (Math_max 420 (spawnIntervalMs d - 40))
         (lastSpawnAt d)
         (Math_min 4.2 (enemyBaseSpeed d + 0.15))
         (Math_floor (inject_Z (nextLevelAt d) * 1.35 + 120)))
      s
  else s.

(** Enemy type chosen by [spawnEnemy] from the level and its one [roll]. *)
Definition chooseType (lvl : Z) (roll : Q) : EnemyType :=
  let type := normal in
  let type := if (4 <=? lvl)%Z && Qltb roll 0.25 then fast else type in
  let type := if (6 <=? lvl)%Z && Qltb 0.86 roll then heavy else type in
  type.

(* ------------------------------------------------------------------ *)
(** ** Game lifecycle pieces that need no platform primitive *)

Definition showOverlayScreen (s : State) : State := with_running false s.

Definition endGame (s : State) : State :=
  let s := with_phase over s in
  let s := with_running false s in
  let d := difficulty s in
  let wasNewBest := (best d <? score d)%Z in
  let s := if wasNewBest then with_difficulty (with_best (score d) d) s else s in
  showOverlayScreen s.

(** [loadPersisted]: [stored] is [Number(localStorage.getItem(best)) || 0],
    [saved] the parsed settings object when there is one. *)
Definition loadPersisted (stored : Z) (saved : option Settings) (s : State)
  : State :=
  let s := with_difficulty (with_best stored (difficulty s)) s in
  match saved with
  | Some v => with_settings v s
  | None => s
  end.

Definition updateBounds (w h : Q) (s : State) : State :=
  with_bounds (mkBounds w h) s.

Definition updateEnemy (scale w h : Q) (e : Enemy) : Enemy :=
  if negb (e_active e) then e
  else
    let x := e_x e + e_vx e * scale in
    let y := e_y e + e_vy e * scale in
    let pad := 60 in
    if Qltb x (- pad) || Qltb (w + pad) x || Qltb y (- pad) || Qltb (h + pad) y
    then with_e_position (-999) (-999) (with_e_active false (with_e_position x y e))
    else with_e_position x y e.

Definition updateEnemies (dt : Q) (s : State) : State :=
  let scale := dt / 16.67 in
  let w := b_w (bounds s) in
  let h := b_h (bounds s) in
  with_enemies (map (updateEnemy scale w h) (enemies s)) s.

(** The scan of [resolveEnemyCollisions]: the pool after the first active
    slot overlapping the player has been deactivated, or [None] when the
    loop ends without a hit. *)
Fixpoint hitScan (p : Player) (es : list Enemy) : option (list Enemy) :=
  match es with
  | [] => None
  | e :: rest =>
      if negb (e_active e) then option_map (cons e) (hitScan p rest)
      else if aabbCollide (p_x p) (p_y p) (p_size p) (e_x e) (e_y e) (e_size e)
      then Some (with_e_active false e :: rest)
      else option_map (cons e) (hitScan p rest)
  end.

(** The test a slot must pass to be hit: active, and overlapping the player. *)
Definition strikes (p : Player) (e : Enemy) : bool :=
  e_active e
  && aabbCollide (p_x p) (p_y p) (p_size p) (e_x e) (e_y e) (e_size e).

Definition resolveEnemyCollisions (s : State) : State :=
  match hitScan (player s) (enemies s) with
  | None => s
  | Some es =>
      let s := with_enemies es s in
      let d := difficulty s in
      let s := with_difficulty (with_combo 0 (with_lives (lives d - 1) d)) s in
      let p := player s in
      let s :=
        if negb (reducedMotion (settings_ s))
        then with_player (with_velocity (p_vx p * -0.7) (p_vy p * -0.7) p) s
        else s in
      if (lives (difficulty s) <=? 0)%Z then endGame s else s
  end.

(* ------------------------------------------------------------------ *)
(** ** Functions that use the platform primitives *)

(** [Math.sqrt], and [Math.random] as the sequence of its results:
    [Math_random n] is what the [n]-th call returns. *)
Class Platform := mkPlatform {
  Math_sqrt : Q -> Q;
  Math_random : nat -> Q }.

Section Engine.

Context {platform : Platform}.

(** The retry loop of [placeOrb]; [tries] counts the attempts left. *)
Fixpoint placeOrbTries (tries : nat) (s : State) : State :=
  let margin := 24 in
  let w := b_w (bounds s) in
  let h := b_h (bounds s) in
  let p := player s in
  let minDist := 130 in
  match tries with
  | O =>
      (* fallback (rare) *)
      with_orb
        (with_orb_position
           (clamp (p_x p + 150) margin (w - margin))
           (clamp (p_y p + 80) margin (h - margin))
           (orb s)) s
  | S tries' =>
      let x := rand (Math_random (drawn s)) margin (w - margin) in
      let y := rand (Math_random (S (drawn s))) margin (h - margin) in
      let s := with_drawn (S (S (drawn s))) s in
      if Qgeb (distSq x y (p_x p) (p_y p)) (minDist * minDist)
      then with_orb (with_orb_position x y (orb s)) s
      else placeOrbTries tries' s
  end.

Definition placeOrb (s : State) : State := placeOrbTries 50 s.

(** The four [if (edge === k)] statements of [spawnEnemy], in order; [n] is
    the count of random results consumed. *)
Definition spawnAtEdge (edge : Z) (w h : Q) (enemy : Enemy) (n : nat)
  : Enemy * nat :=
  let margin := 20 in
  let '(enemy, n) :=
    if (edge =? 0)%Z
    then (with_e_position (rand (Math_random n) margin (w - margin)) (- margin) enemy, S n)
    else (enemy, n) in
  let '(enemy, n) :=
    if (edge =? 1)%Z
    then (with_e_position (w + margin) (rand (Math_random n) margin (h - margin)) enemy, S n)
    else (enemy, n) in
  let '(enemy, n) :=
    if (edge =? 2)%Z
    then (with_e_position (rand (Math_random n) margin (w - margin)) (h + margin) enemy, S n)
    else (enemy, n) in
  let '(enemy, n) :=
    if (edge =? 3)%Z
    then (with_e_position (- margin) (rand (Math_random n) margin (h - margin)) enemy, S n)
    else (enemy, n) in
  (enemy, n).

Definition spawnEnemy (now : Q) (s : State) : State :=
  let d := difficulty s in
  let w := b_w (bounds s) in
  let h := b_h (bounds s) in
  match find inactive (enemies s) with
  | None => s (* pool full *)
  | Some enemy =>
      let roll := Math_random (drawn s) in
      let type := chooseType (level d) roll in
      let enemy :=
        with_e_kind type (if EnemyType_eqb type heavy then 24 else 18) enemy in
      let edge := Math_floor (rand (Math_random (S (drawn s))) 0 4) in
      let '(enemy, n) := spawnAtEdge edge w h enemy (S (S (drawn s))) in
      let p := player s in
      let dx := p_x p - e_x enemy in
      let dy := p_y p - e_y enemy in
      let len := Math_max 0.001 (Math_sqrt (dx * dx + dy * dy)) in
      let speed := enemyBaseSpeed d + rand (Math_random n) (-0.2) 0.2 in
      let speed := if EnemyType_eqb type fast then speed * 1.35 else speed in
      let speed := if EnemyType_eqb type heavy then speed * 0.85 else speed in
      let enemy := with_e_velocity ((dx / len) * speed) ((dy / len) * speed) enemy in
      let enemy := with_e_active true enemy in
      with_difficulty (with_lastSpawnAt now d)
        (with_enemies (writeFirstInactive enemy (enemies s))
           (with_drawn (S n) s))
  end.

(** The guard of [maybeSpawnEnemies]. *)
Definition spawnDue (now : Q) (s : State) : bool :=
  let d := difficulty s in
  Qgeb (now - lastSpawnAt d) (spawnIntervalMs d).

(** [if (d.level >= lvl && Math.random() < p) spawnEnemy(now)]: the random
    result is drawn only when the level test passes. *)
Definition extraSpawn (lvl : Z) (p : Q) (now : Q) (s : State) : State :=
  if (lvl <=? level (difficulty s))%Z then
    let r := Math_random (drawn s) in
    let s := with_drawn (S (drawn s)) s in
    if Qltb r p then spawnEnemy now s else s
  else s.

Definition maybeSpawnEnemies (now : Q) (s : State) : State :=
  if spawnDue now s then
    let s := spawnEnemy now s in
    let s := extraSpawn 7 0.30 now s in
    let s := extraSpawn 10 0.18 now s in
    s
  else s.

Definition deactivate (e : Enemy) : Enemy :=
  with_e_velocity 0 0 (with_e_position (-999) (-999) (with_e_active false e)).

Definition resetRunState (s : State) : State :=
  let d := difficulty s in
  let p := player s in
  let d := mkDifficulty 1 0 3 0 (best d) 950 0 1.7 200 in
  let p := with_position (b_w (bounds s) / 2) (b_h (bounds s) / 2) p in
  let p := with_velocity 0 0 p in
  let p := with_dash (mkDash true (dash_cooldownMs (p_dash p))
                        (dash_burst (p_dash p)) 0) p in
  let s := with_difficulty d s in
  let s := with_player p s in
  let s := with_enemies (map deactivate (enemies s)) s in
  placeOrb s.

Definition updatePlayer (dt now : Q) (s : State) : State :=
  let p := player s in
  let i := input s in
  let '(ax, ay) :=
    if mouseFollow (settings_ s) && i_hasMouse i then
      let dx := i_mouseX i - p_x p in
      let dy := i_mouseY i - p_y p in
      let len := Math_max 0.001 (Math_sqrt (dx * dx + dy * dy)) in
      ((dx / len) * p_speed p, (dy / len) * p_speed p)
    else
      let ax := 0 in
      let ay := 0 in
      let ax := if i_left i then ax - p_speed p else ax in
      let ax := if i_right i then ax + p_speed p else ax in
      let ay := if i_up i then ay - p_speed p else ay in
      let ay := if i_down i then ay + p_speed p else ay in
      (ax, ay) in
  let scale := dt / 16.67 in
  let p := with_velocity (p_vx p + ax * scale) (p_vy p + ay * scale) p in
  let '(p, i) :=
    if i_dash i then
      let i := with_i_dash false i in
      let canDash :=
        Qgeb (now - dash_lastDashAt (p_dash p)) (dash_cooldownMs (p_dash p)) in
      if canDash then
        let dx := orElse (p_vx p) 0.001 in
        let dy := orElse (p_vy p) 0.001 in
        let len := Math_max 0.001 (Math_sqrt (dx * dx + dy * dy)) in
        let p := with_velocity ((dx / len) * dash_burst (p_dash p))
                               ((dy / len) * dash_burst (p_dash p)) p in
        (with_dash (with_lastDashAt now (p_dash p)) p, i)
      else (p, i)
    else (p, i) in
  let p := with_velocity (p_vx p * p_friction p) (p_vy p * p_friction p) p in
  let p := with_velocity (clamp (p_vx p) (- p_maxSpeed p) (p_maxSpeed p))
                         (clamp (p_vy p) (- p_maxSpeed p) (p_maxSpeed p)) p in
  let p := with_position (p_x p + p_vx p * scale) (p_y p + p_vy p * scale) p in
  let margin := 2 in
  let p := with_position
             (clamp (p_x p) margin (b_w (bounds s) - p_size p - margin))
             (clamp (p_y p) margin (b_h (bounds s) - p_size p - margin)) p in
  with_player p (with_input i s).

(** Points awarded by [resolveOrbCollection] when [d.combo] already holds the
    incremented value [c]. *)
Definition gainedFor (c : Z) : Z := (20 + Z.min 30 (c * 2))%Z.

Definition resolveOrbCollection (s : State) : State :=
  let p := player s in
  let o := orb s in
  let d := difficulty s in
  if aabbCollide (p_x p) (p_y p) (p_size p) (o_x o) (o_y o) (o_size o) then
    let d := with_combo (combo d + 1) d in
    let gained := gainedFor (combo d) in
    let d := with_score (score d + gained) d in
    placeOrb (with_difficulty d s)
  else s.

(** Elapsed time used by a frame entered at [now]:
    [clamp(now - (t.lastFrame || now), 0, 40)]. *)
Definition frameDt (now : Q) (s : State) : Q :=
  let last := orElse (lastFrame (time s)) now in
  clamp (now - last) 0 40.

(** The systems of one frame, in the order [loop] calls them. *)
Definition runSystems (dt now : Q) (s : State) : State :=
  let s := updatePlayer dt now s in
  let s := maybeSpawnEnemies now s in
  let s := updateEnemies dt s in
  let s := resolveOrbCollection s in
  let s := resolveEnemyCollisions s in
  let s := scaleDifficultyOnScore s in
  s.

(** One call of [loop(now)]; the next call is made by the browser through
    [requestAnimationFrame]. *)
Definition loop (now : Q) (s : State) : State :=
  if negb (Phase_eqb (phase s) play) || negb (running s) then s
  else
    let dt := frameDt now s in
    let s := with_time (mkTime now) s in
    runSystems dt now s.

(** [now] is the value of [performance.now()] at the call. *)
Definition startGame (now : Q) (s : State) : State :=
  let s := with_phase play s in
  let s := with_running true s in
  let s := resetRunState s in
  loop now s.

Definition togglePause (now : Q) (s : State) : State :=
  if Phase_eqb (phase s) play then
    let s := with_phase pause s in
    let s := with_running false s in
    showOverlayScreen s
  else if Phase_eqb (phase s) pause then
    let s := with_phase play s in
    let s := with_running true s in
    loop now s
  else s.

(* ------------------------------------------------------------------ *)
(** ** Input handling and buttons *)

Definition with_dirs (u d l r : bool) (i : Input) : Input :=
  mkInput u d l r (i_dash i) (i_mouseX i) (i_mouseY i) (i_hasMouse i).

(** [setKey(e, isDown)]; [k] is [e.key.toLowerCase()]. *)
Definition setKey (k : string) (isDown : bool) (now : Q) (s : State) : State :=
  if String.eqb k "p" && isDown then togglePause now s
  else if negb (Phase_eqb (phase s) play) then s
  else
    let i := input s in
    let i := if String.eqb k "arrowup" || String.eqb k "w"
             then with_dirs isDown (i_down i) (i_left i) (i_right i) i else i in
    let i := if String.eqb k "arrowdown" || String.eqb k "s"
             then with_dirs (i_up i) isDown (i_left i) (i_right i) i else i in
    let i := if String.eqb k "arrowleft" || String.eqb k "a"
             then with_dirs (i_up i) (i_down i) isDown (i_right i) i else i in
    let i := if String.eqb k "arrowright" || String.eqb k "d"
             then with_dirs (i_up i) (i_down i) (i_left i) isDown i else i in
    let i := if String.eqb k " " && isDown then with_i_dash true i else i in
    with_input i s.

Definition mouseMove (x y : Q) (s : State) : State :=
  let i := input s in
  with_input
    (mkInput (i_up i) (i_down i) (i_left i) (i_right i) (i_dash i) x y true) s.

(** A button that only opens a screen: sets the phase, shows the overlay. *)
Definition openScreen (ph : Phase) (s : State) : State :=
  showOverlayScreen (with_phase ph s).

Definition resize (w h : Q) (s : State) : State :=
  placeOrb (updateBounds w h s).

Definition init (w h : Q) (stored : Z) (saved : option Settings) (s : State)
  : State :=
  let s := updateBounds w h s in
  let s := initEnemyPool s in
  let s := loadPersisted stored saved s in
  let s := with_phase start s in
  showOverlayScreen s.

(** Everything that can run after [init]: the frame callback and the
    listeners the script registers. *)
Inductive Event :=
| EvFrame (now : Q)                       (* requestAnimationFrame(loop) *)
| EvStart (now : Q)                       (* btnStart, btnRestart, btnPlayAgain *)
| EvPause (now : Q)                       (* btnPause, btnResume *)
| EvKey (k : string) (isDown : bool) (now : Q)  (* keydown, keyup *)
| EvMouseMove (x y : Q)
| EvHow | EvBackFromHow
| EvSettings                              (* btnSettings, btnOverSettings *)
| EvBackFromSettings
| EvResize (w h : Q)
| EvToggleSound (b : bool)
| EvToggleReducedMotion (b : bool)
| EvToggleMouseFollow (b : bool).

Definition handle (ev : Event) (s : State) : State :=
  match ev with
  | EvFrame now => loop now s
  | EvStart now => startGame now s
  | EvPause now => togglePause now s
  | EvKey k isDown now => setKey k isDown now s
  | EvMouseMove x y => mouseMove x y s
  | EvHow => openScreen how s
  | EvBackFromHow => openScreen start s
  | EvSettings => openScreen settings s
  | EvBackFromSettings => openScreen pause s
  | EvResize w h => resize w h s
  | EvToggleSound b =>
      let v := settings_ s in
      with_settings (mkSettings b (reducedMotion v) (mouseFollow v)) s
  | EvToggleReducedMotion b =>
      let v := settings_ s in
      with_settings (mkSettings (sound v) b (mouseFollow v)) s
  | EvToggleMouseFollow b =>
      let v := settings_ s in
      with_settings (mkSettings (sound v) (reducedMotion v) b) s
  end.

Definition run (evs : list Event) (s : State) : State :=
  fold_left (fun s ev => handle ev s) evs s.

(** The three operations of the enemy pool: [spawnEnemy], the tick
    [updateEnemies], and the reset done by [resetRunState]. *)
Inductive PoolOp :=
| OpSpawn (now : Q)
| OpTick (dt : Q)
| OpReset.

Definition poolStep (op : PoolOp) (s : State) : State :=
  match op with
  | OpSpawn now => spawnEnemy now s
  | OpTick dt => updateEnemies dt s
  | OpReset => resetRunState s
  end.

Definition runPool (ops : list PoolOp) (s : State) : State :=
  fold_left (fun s op => poolStep op s) ops s.

End Engine.

(* ------------------------------------------------------------------ *)
(** ** Concrete primitives for worked examples *)

(** Square root truncated to six decimals. *)
Definition sqrt6 (q : Q) : Q :=
  Z.sqrt (Qfloor (q * 1000000000000)) # 1000000.

(** [Math.random] returning the listed values in order, then [0]. *)
Definition randomFrom (l : list Q) (n : nat) : Q := nth n l 0.

(** A playfield of 800 x 600 after [init] with empty storage. *)
Definition ready : State := init 800 600 0%Z None state0.

(** A platform whose [Math.random] returns the listed values. *)
Definition demo (l : list Q) : Platform := mkPlatform sqrt6 (randomFrom l).

(** The player standing on the orb, combo still at zero. *)
Definition atOrb : State :=
  with_orb (mkOrb 410 310 18)
    (with_player (with_position 400 300 (player ready)) ready).

(** A slot in flight across the middle of the playfield. *)
Definition flying (x y : Q) : Enemy := mkEnemy true x y 1 0 18 normal.

(** Every one of the 22 slots active. *)
Definition saturated : State :=
  with_enemies (repeat (flying 100 100) 22) (with_phase play (with_running true ready)).

(** Right, down and the dash key held at rest, in play. *)
Definition dashDiagonal : State :=
  with_input (mkInput false true false true true 0 0 false)
    (with_phase play (with_running true ready)).

(** Score far beyond several level thresholds at level 1. *)
Definition overshoot : State :=
  with_difficulty (with_score 10000 (difficulty ready)) ready.

(** Level 6 with an empty pool. *)
Definition veteran : State :=
  with_difficulty (mkDifficulty 6 1500 3 0 0 750 0 2.45 1600) ready.

(** Two active slots on top of the player (at 200, 200), behind an inactive
    one. *)
Definition mobbed : State :=
  with_enemies [blankEnemy; flying 205 205; flying 210 195; flying 700 500]
    ready.

(** The first frame of a run started at t = 1000 ms, which spawns one
    enemy at the top edge, and the same run paused 10 ms later. *)
Definition firstFrame : State :=
  @startGame (demo [0.9; 0.9; 0.5; 0.1; 0.5; 0.5]) 1000 ready.

Definition pausedGame : State := @togglePause (demo []) 1010 firstFrame.

(** The same run after a fatal hit: game over, baseline still at 1000. *)
Definition lostGame : State := endGame firstFrame.

Definition firstEnemyY (s : State) : Q :=
  match enemies s with
  | e :: _ => e_y e
  | [] => 0
  end.

Definition firstEnemyType (s : State) : option EnemyType :=
  option_map e_type (hd_error (enemies s)).

(** Type selection as the specification words it, with one draw for the
    fast test and a separate draw for the heavy test, heavy winning when both
    pass. *)
Definition chooseTypeIndependent (lvl : Z) (fastRoll heavyRoll : Q)
  : EnemyType :=
  if (6 <=? lvl)%Z && Qltb 0.86 heavyRoll then heavy
  else if (4 <=? lvl)%Z && Qltb fastRoll 0.25 then fast
  else normal.

(** Resume as the specification words it: the baseline is set to the
    current time before the frame runs. *)
Definition resumeWithFreshBaseline {platform : Platform} (now : Q) (s : State)
  : State :=
  loop now (with_time (mkTime now) (with_running true (with_phase play s))).

(** The pointer at (500, 400) with pointer-follow switched on. *)
Definition pointerMode : State :=
  with_settings (mkSettings true false true)
    (with_input (mkInput false false false false false 500 400 true)
       dashDiagonal).

(** The diagonal dash done at t = 1000 ms, and the dash key pressed again
    afterwards. *)
Definition afterDash : State := @updatePlayer (demo []) 16.67 1000 dashDiagonal.

Definition dashAgain : State :=
  with_input (with_i_dash true (input afterDash)) afterDash.

(** The mobbed player on the move. *)
Definition mobbedMoving : State :=
  with_player (with_velocity 3 (-2) (player mobbed)) mobbed.

(* ------------------------------------------------------------------ *)
(** ** Basic facts about the utilities *)

Lemma Qltb_lt (a b : Q) : Qltb a b = true <-> a < b.
Proof.
  unfold Qltb. rewrite negb_true_iff.
  split; intro H.
  - apply Qnot_le_lt. intro Hle. apply Qle_bool_iff in Hle. congruence.
  - destruct (Qle_bool b a) eqn:E; [|reflexivity].
    apply Qle_bool_iff in E. exfalso. exact (Qlt_not_le _ _ H E).
Qed.

Lemma Qgeb_ge (a b : Q) : Qgeb a b = true <-> b <= a.
Proof. unfold Qgeb. apply Qle_bool_iff. Qed.

Lemma clamp_lower (v lo hi : Q) : lo <= clamp v lo hi.
Proof. unfold clamp, Math_max. apply Q.le_max_l. Qed.

Lemma clamp_upper (v lo hi : Q) : lo <= hi -> clamp v lo hi <= hi.
Proof.
  intro H. unfold clamp, Math_max, Math_min.
  apply Q.max_lub; [exact H | apply Q.le_min_l].
Qed.

Lemma clamp_symmetric_sq (v m : Q) :
  0 <= m -> clamp v (- m) m * clamp v (- m) m <= m * m.
Proof.
  intro Hm.
  assert (Hlo := clamp_lower v (- m) m).
  assert (Hhi : clamp v (- m) m <= m) by (apply clamp_upper; lra).
  nra.
Qed.

(* ------------------------------------------------------------------ *)
(** ** What each system leaves alone *)

Section Properties.

Context {platform : Platform}.

(** The player's constants and the clamped velocity after [updatePlayer]. *)
Lemma updatePlayer_velocity (dt now : Q) (s : State) :
  let m := p_maxSpeed (player s) in
  let p' := player (updatePlayer dt now s) in
  p_maxSpeed p' = m /\
  (exists v, p_vx p' = clamp v (- m) m) /\
  (exists v, p_vy p' = clamp v (- m) m).
Proof.
  unfold updatePlayer.
  destruct (mouseFollow (settings_ s) && i_hasMouse (input s));
    destruct (i_dash (input s)); cbn;
    try destruct (Qgeb _ _); cbn; repeat split; eexists; reflexivity.
Qed.

(** [placeOrb] writes the orb and the random counter only. *)
Lemma placeOrbTries_frame (tries : nat) (s : State) :
  let s' := placeOrbTries tries s in
  difficulty s' = difficulty s /\ enemies s' = enemies s /\
  time s' = time s /\ player s' = player s /\
  phase s' = phase s /\ running s' = running s.
Proof.
  revert s. induction tries as [|k IH]; intro s; cbn.
  - repeat split.
  - destruct (Qgeb _ _).
    + repeat split.
    + specialize (IH (with_drawn (S (S (drawn s))) s)). cbn in IH. exact IH.
Qed.

Lemma placeOrb_difficulty (s : State) :
  difficulty (placeOrb s) = difficulty s.
Proof. apply (placeOrbTries_frame 50 s). Qed.

Lemma placeOrb_enemies (s : State) : enemies (placeOrb s) = enemies s.
Proof. apply (placeOrbTries_frame 50 s). Qed.

Lemma placeOrb_time (s : State) : time (placeOrb s) = time s.
Proof. apply (placeOrbTries_frame 50 s). Qed.

Lemma placeOrb_player (s : State) : player (placeOrb s) = player s.
Proof. apply (placeOrbTries_frame 50 s). Qed.

Lemma writeFirstInactive_length (e' : Enemy) (es : list Enemy) :
  find inactive es <> None ->
  length (writeFirstInactive e' es) = length es.
Proof.
  induction es as [|e rest IH]; cbn; intro H.
  - congruence.
  - destruct (inactive e); cbn; [reflexivity|]. f_equal. apply IH, H.
Qed.

Lemma hitScan_length (p : Player) (es es' : list Enemy) :
  hitScan p es = Some es' -> length es' = length es.
Proof.
  revert es'. induction es as [|e rest IH]; cbn; intros es' H.
  - discriminate.
  - destruct (negb (e_active e)).
    + destruct (hitScan p rest) as [r|]; cbn in H; [|discriminate].
      injection H as <-. cbn. f_equal. apply IH. reflexivity.
    + destruct (aabbCollide _ _ _ _ _ _).
      * injection H as <-. reflexivity.
      * destruct (hitScan p rest) as [r|]; cbn in H; [|discriminate].
        injection H as <-. cbn. f_equal. apply IH. reflexivity.
Qed.

(** What every system but the enemy-collision one keeps: the frame
    baseline, the pool length, the best score and the speed limit. *)
Record Stable (s s' : State) : Prop := mkStable {
  st_time : time s' = time s;
  st_pool : length (enemies s') = length (enemies s);
  st_best : best (difficulty s') = best (difficulty s);
  st_maxSpeed : p_maxSpeed (player s') = p_maxSpeed (player s) }.

Lemma Stable_refl (s : State) : Stable s s.
Proof. split; reflexivity. Qed.

Lemma Stable_trans (a b c : State) : Stable a b -> Stable b c -> Stable a c.
Proof.
  intros [t1 p1 b1 m1] [t2 p2 b2 m2]. split; congruence.
Qed.

Ltac stable_fields := split; cbn; reflexivity.

Lemma placeOrb_stable (s : State) : Stable s (placeOrb s).
Proof.
  split.
  - apply placeOrb_time.
  - now rewrite placeOrb_enemies.
  - now rewrite placeOrb_difficulty.
  - now rewrite placeOrb_player.
Qed.

Lemma spawnEnemy_stable (now : Q) (s : State) : Stable s (spawnEnemy now s).
Proof.
  unfold spawnEnemy.
  destruct (find inactive (enemies s)) as [e|] eqn:F; [|apply Stable_refl].
  destruct (spawnAtEdge _ _ _ _ _) as [e' n].
  split; cbn.
  - reflexivity.
  - apply writeFirstInactive_length. congruence.
  - reflexivity.
  - reflexivity.
Qed.

Lemma extraSpawn_stable (lvl : Z) (p now : Q) (s : State) :
  Stable s (extraSpawn lvl p now s).
Proof.
  unfold extraSpawn.
  destruct (lvl <=? _)%Z; [|apply Stable_refl].
  destruct (Qltb _ _).
  - eapply Stable_trans; [|apply spawnEnemy_stable]. stable_fields.
  - stable_fields.
Qed.

Lemma maybeSpawnEnemies_stable (now : Q) (s : State) :
  Stable s (maybeSpawnEnemies now s).
Proof.
  unfold maybeSpawnEnemies.
  destruct (spawnDue now s); [|apply Stable_refl].
  eapply Stable_trans; [apply spawnEnemy_stable|].
  eapply Stable_trans; apply extraSpawn_stable.
Qed.

Lemma updatePlayer_stable (dt now : Q) (s : State) :
  Stable s (updatePlayer dt now s).
Proof.
  unfold updatePlayer.
  destruct (mouseFollow (settings_ s) && i_hasMouse (input s));
    destruct (i_dash (input s)); cbn;
    try destruct (Qgeb _ _); cbn; stable_fields.
Qed.

Lemma updateEnemies_stable (dt : Q) (s : State) :
  Stable s (updateEnemies dt s).
Proof.
  split; cbn; [reflexivity | apply length_map | reflexivity | reflexivity].
Qed.

Lemma resolveOrbCollection_stable (s : State) :
  Stable s (resolveOrbCollection s).
Proof.
  unfold resolveOrbCollection.
  destruct (aabbCollide _ _ _ _ _ _); [|apply Stable_refl].
  eapply Stable_trans; [|apply placeOrb_stable]. stable_fields.
Qed.

Lemma scaleDifficultyOnScore_stable (s : State) :
  Stable s (scaleDifficultyOnScore s).
Proof.
  unfold scaleDifficultyOnScore.
  destruct (_ <=? _)%Z; [apply mkStable; reflexivity | apply Stable_refl].
Qed.

Lemma scaleDifficultyOnScore_phase_score (s : State) :
  phase (scaleDifficultyOnScore s) = phase s /\
  score (difficulty (scaleDifficultyOnScore s)) = score (difficulty s).
Proof.
  unfold scaleDifficultyOnScore. destruct (_ <=? _)%Z; split; reflexivity.
Qed.

Lemma resetRunState_stable (s : State) : Stable s (resetRunState s).
Proof.
  unfold resetRunState.
  eapply Stable_trans; [|apply placeOrb_stable].
  split; cbn; [reflexivity | apply length_map | reflexivity | reflexivity].
Qed.

(** [endGame] is the one place that assigns [d.best]. *)
Lemma endGame_best (s : State) :
  best (difficulty (endGame s))
  = if (best (difficulty s) <? score (difficulty s))%Z
    then score (difficulty s) else best (difficulty s).
Proof.
  unfold endGame; cbn.
  destruct (best (difficulty s) <? score (difficulty s))%Z; reflexivity.
Qed.

Lemma endGame_frame (s : State) :
  enemies (endGame s) = enemies s /\ time (endGame s) = time s /\
  lives (difficulty (endGame s)) = lives (difficulty s) /\
  combo (difficulty (endGame s)) = combo (difficulty s) /\
  score (difficulty (endGame s)) = score (difficulty s) /\
  phase (endGame s) = over /\
  player (endGame s) = player s.
Proof.
  unfold endGame; cbn.
  destruct (best (difficulty s) <? score (difficulty s))%Z; cbn; repeat split.
Qed.

(** How the best score may differ across a step: not at all, or the game
    is over and the best score is the final score, which beat the old one. *)
Definition BestWrite (s s' : State) : Prop :=
  best (difficulty s') = best (difficulty s) \/
  (phase s' = over /\
   best (difficulty s') = score (difficulty s') /\
   (best (difficulty s) < best (difficulty s'))%Z).

Lemma BestWrite_le (s s' : State) :
  BestWrite s s' -> (best (difficulty s) <= best (difficulty s'))%Z.
Proof. intros [H | (_ & _ & H)]; lia. Qed.

Lemma endGame_BestWrite (s : State) : BestWrite s (endGame s).
Proof.
  destruct (endGame_frame s) as (_ & _ & _ & _ & Hs & Hp & _).
  unfold BestWrite. rewrite Hs, Hp, endGame_best.
  destruct (best (difficulty s) <? score (difficulty s))%Z eqn:E.
  - right. apply Z.ltb_lt in E. repeat split. exact E.
  - now left.
Qed.

(** What a whole frame and every event keeps. *)
Record Kept (s s' : State) : Prop := mkKept {
  k_pool : length (enemies s') = length (enemies s);
  k_best : BestWrite s s';
  k_maxSpeed : p_maxSpeed (player s') = p_maxSpeed (player s) }.

Lemma Stable_Kept (s s' : State) : Stable s s' -> Kept s s'.
Proof. intros [_ p b m]. split; [exact p | now left | exact m]. Qed.

Lemma Kept_from (a b c : State) :
  length (enemies b) = length (enemies a) ->
  best (difficulty b) = best (difficulty a) ->
  p_maxSpeed (player b) = p_maxSpeed (player a) ->
  Kept b c -> Kept a c.
Proof.
  intros p1 b1 m1 [p2 b2 m2]. split; [congruence | | congruence].
  unfold BestWrite in *. rewrite <- b1. exact b2.
Qed.

Lemma Stable_then_Kept (a b c : State) : Stable a b -> Kept b c -> Kept a c.
Proof. intros [_ p1 b1 m1]. now apply Kept_from. Qed.

Lemma Kept_then_scale (a b : State) :
  Kept a b -> Kept a (scaleDifficultyOnScore b).
Proof.
  intros [p w m].
  destruct (scaleDifficultyOnScore_stable b) as [_ p' b' m'].
  destruct (scaleDifficultyOnScore_phase_score b) as [Hp Hs].
  split; [congruence | | congruence].
  unfold BestWrite in *. rewrite Hp, Hs, b'. exact w.
Qed.

Lemma endGame_kept (s : State) : Kept s (endGame s).
Proof.
  destruct (endGame_frame s) as (He & _ & _ & _ & _ & _ & Hp).
  split; [now rewrite He | apply endGame_BestWrite | now rewrite Hp].
Qed.

Lemma resolveEnemyCollisions_time (s : State) :
  time (resolveEnemyCollisions s) = time s.
Proof.
  unfold resolveEnemyCollisions.
  destruct (hitScan (player s) (enemies s)) as [es|]; [|reflexivity].
  match goal with
  | |- time (if ?c then endGame ?a else _) = _ =>
      destruct c; [destruct (endGame_frame a) as (_ & -> & _)|]
  end; destruct (negb (reducedMotion _)); reflexivity.
Qed.

Lemma resolveEnemyCollisions_kept (s : State) :
  Kept s (resolveEnemyCollisions s).
Proof.
  unfold resolveEnemyCollisions.
  destruct (hitScan (player s) (enemies s)) as [es|] eqn:H;
    [|apply Stable_Kept, Stable_refl].
  apply hitScan_length in H.
  match goal with
  | |- Kept _ (if ?c then endGame ?a else _) =>
      assert (Ha : Stable s a);
      [| destruct c; [eapply Stable_then_Kept; [exact Ha|] | apply Stable_Kept, Ha]]
  end.
  - destruct (negb (reducedMotion _)); split; cbn;
      first [exact H | reflexivity].
  - apply endGame_kept.
Qed.

(* ------------------------------------------------------------------ *)
(** ** Orb pickup and scoring *)

(** C1 (amended): on every orb pickup the combo is incremented first and the
    score gained is [20 + min(30, combo*2)] for the combo value after the
    increment, that is [20 + min(30, (c+1)*2)] for the value [c] held just
    before the pickup. *)
Theorem orb_pickup_gain (s : State) :
  let p := player s in
  let o := orb s in
  let d := difficulty s in
  let d' := difficulty (resolveOrbCollection s) in
  aabbCollide (p_x p) (p_y p) (p_size p) (o_x o) (o_y o) (o_size o) = true ->
  combo d' = (combo d + 1)%Z /\
  score d' = (score d + (20 + Z.min 30 (combo d' * 2)))%Z /\
  (score d' - score d = 20 + Z.min 30 ((combo d + 1) * 2))%Z.
Proof.
  cbv zeta. intro Hhit.
  unfold resolveOrbCollection. rewrite Hhit.
  rewrite placeOrb_difficulty. cbn. unfold gainedFor.
  repeat split. lia.
Qed.

(** Without an overlap [resolveOrbCollection] changes nothing. *)
Lemma orb_untouched (s : State) :
  let p := player s in
  let o := orb s in
  aabbCollide (p_x p) (p_y p) (p_size p) (o_x o) (o_y o) (o_size o) = false ->
  resolveOrbCollection s = s.
Proof. cbv zeta. intro H. unfold resolveOrbCollection. now rewrite H. Qed.

(* ------------------------------------------------------------------ *)
(** ** Enemy pool capacity *)

Lemma activeCount_le_length (es : list Enemy) :
  (activeCount es <= length es)%nat.
Proof. unfold activeCount. apply filter_length_le. Qed.

Lemma saturated_iff (es : list Enemy) :
  find inactive es = None <-> activeCount es = length es.
Proof.
  unfold activeCount, inactive.
  induction es as [|e rest IH]; cbn; [tauto|].
  destruct (e_active e); cbn.
  - rewrite IH. split; intro H; [now f_equal | now injection H].
  - split; [discriminate|]. intro H.
    pose proof (filter_length_le e_active rest). lia.
Qed.

Lemma spawnEnemy_saturated (now : Q) (s : State) :
  find inactive (enemies s) = None -> spawnEnemy now s = s.
Proof. intro H. unfold spawnEnemy. now rewrite H. Qed.

Lemma poolStep_length (op : PoolOp) (s : State) :
  length (enemies (poolStep op s)) = length (enemies s).
Proof.
  destruct op; cbn [poolStep].
  - apply spawnEnemy_stable.
  - apply updateEnemies_stable.
  - apply resetRunState_stable.
Qed.

Lemma runPool_length (ops : list PoolOp) (s : State) :
  length (enemies (runPool ops s)) = length (enemies s).
Proof.
  revert s. induction ops as [|op ops IH]; intro s; cbn; [reflexivity|].
  unfold runPool in IH. rewrite IH. apply poolStep_length.
Qed.

Lemma init_pool (w h : Q) (stored : Z) (saved : option Settings) :
  enemies (init w h stored saved state0) = repeat blankEnemy 22.
Proof. destruct saved; reflexivity. Qed.

(** C2: from the initialized pool, after any sequence of spawn, tick and
    reset operations the pool still has its 22 slots and at most 22 of them
    are active; a spawn that finds no inactive slot returns the state as it
    was, so no slot is activated and no field of any slot changes. *)
Theorem pool_capacity_respected
  (w h : Q) (stored : Z) (saved : option Settings) (ops : list PoolOp) :
  let s := runPool ops (init w h stored saved state0) in
  (activeCount (enemies s) <= 22)%nat /\
  length (enemies s) = 22%nat /\
  (forall now t, find inactive (enemies t) = None ->
                 spawnEnemy now t = t /\
                 activeCount (enemies (spawnEnemy now t))
                 = activeCount (enemies t)).
Proof.
  cbv zeta.
  assert (L : length (enemies (runPool ops (init w h stored saved state0)))
              = 22%nat).
  { rewrite runPool_length, init_pool. reflexivity. }
  split; [|split].
  - rewrite <- L. apply activeCount_le_length.
  - exact L.
  - intros now t H. rewrite (spawnEnemy_saturated now t H). now split.
Qed.

(* ------------------------------------------------------------------ *)
(** ** A whole frame and the events *)

Lemma runSystems_time (dt now : Q) (s : State) :
  time (runSystems dt now s) = time s.
Proof.
  unfold runSystems.
  rewrite (st_time _ _ (scaleDifficultyOnScore_stable _)).
  rewrite resolveEnemyCollisions_time.
  rewrite (st_time _ _ (resolveOrbCollection_stable _)).
  rewrite (st_time _ _ (updateEnemies_stable _ _)).
  rewrite (st_time _ _ (maybeSpawnEnemies_stable _ _)).
  apply (st_time _ _ (updatePlayer_stable _ _ _)).
Qed.

Lemma runSystems_kept (dt now : Q) (s : State) :
  Kept s (runSystems dt now s).
Proof.
  unfold runSystems.
  apply Kept_then_scale.
  eapply Stable_then_Kept; [|apply resolveEnemyCollisions_kept].
  eapply Stable_trans; [apply updatePlayer_stable|].
  eapply Stable_trans; [apply maybeSpawnEnemies_stable|].
  eapply Stable_trans; [apply updateEnemies_stable|].
  apply resolveOrbCollection_stable.
Qed.

Ltac kept_fields := split; [reflexivity | left; reflexivity | reflexivity].

Lemma loop_kept (now : Q) (s : State) : Kept s (loop now s).
Proof.
  unfold loop.
  destruct (_ || _); [kept_fields|].
  apply (Kept_from s (with_time (mkTime now) s));
    [reflexivity | reflexivity | reflexivity | apply runSystems_kept].
Qed.

Lemma startGame_kept (now : Q) (s : State) : Kept s (startGame now s).
Proof.
  unfold startGame.
  eapply Stable_then_Kept; [|apply loop_kept].
  destruct (resetRunState_stable (with_running true (with_phase play s)))
    as [t p b m].
  split; [exact t | exact p | exact b | exact m].
Qed.

Lemma togglePause_kept (now : Q) (s : State) : Kept s (togglePause now s).
Proof.
  unfold togglePause.
  destruct (Phase_eqb (phase s) play); [kept_fields|].
  destruct (Phase_eqb (phase s) pause); [|kept_fields].
  apply (Stable_then_Kept s (with_running true (with_phase play s)));
    [split; reflexivity | apply loop_kept].
Qed.

Lemma setKey_kept (k : string) (isDown : bool) (now : Q) (s : State) :
  Kept s (setKey k isDown now s).
Proof.
  unfold setKey.
  destruct (_ && isDown); [apply togglePause_kept|].
  destruct (negb _); kept_fields.
Qed.

(** Every event keeps the pool length, and changes the best score only by
    ending the game on a score above it. *)
Lemma handle_kept (ev : Event) (s : State) : Kept s (handle ev s).
Proof.
  destruct ev; cbn [handle]; try kept_fields.
  - apply loop_kept.
  - apply startGame_kept.
  - apply togglePause_kept.
  - apply setKey_kept.
  - unfold resize.
    apply Stable_Kept.
    apply (Stable_trans s (updateBounds w h s)); [split; reflexivity|].
    apply placeOrb_stable.
Qed.

Lemma run_pool_length (evs : list Event) (s : State) :
  length (enemies (run evs s)) = length (enemies s).
Proof.
  revert s. induction evs as [|ev evs IH]; intro s; cbn; [reflexivity|].
  unfold run in IH. rewrite IH. apply handle_kept.
Qed.

Lemma run_maxSpeed (evs : list Event) (s : State) :
  p_maxSpeed (player (run evs s)) = p_maxSpeed (player s).
Proof.
  revert s. induction evs as [|ev evs IH]; intro s; cbn; [reflexivity|].
  unfold run in IH. rewrite IH. apply handle_kept.
Qed.

Lemma run_best_le (evs : list Event) (s : State) :
  (best (difficulty s) <= best (difficulty (run evs s)))%Z.
Proof.
  revert s. induction evs as [|ev evs IH]; intro s; cbn; [apply Z.le_refl|].
  unfold run in IH.
  eapply Z.le_trans; [|apply IH].
  apply BestWrite_le, handle_kept.
Qed.

(** The same bound holds in a session, whatever events have run. *)
Corollary pool_capacity_in_session
  (w h : Q) (stored : Z) (saved : option Settings) (evs : list Event) :
  (activeCount (enemies (run evs (init w h stored saved state0))) <= 22)%nat.
Proof.
  pose proof (run_pool_length evs (init w h stored saved state0)) as L.
  rewrite init_pool in L. cbn in L. rewrite <- L.
  apply activeCount_le_length.
Qed.

(* ------------------------------------------------------------------ *)
(** ** Difficulty scaling *)

(** C3: one check of the difficulty controller levels up exactly when
    [score >= nextLevelAt]; it then raises the level by exactly 1 however far
    the score overshoots, sets [nextLevelAt] to
    [floor(nextLevelAt * 1.35 + 120)], adds 0.15 to [enemyBaseSpeed] capped
    at 4.2 and takes 40 off [spawnIntervalMs] floored at 420; otherwise the
    state is unchanged. *)
Theorem level_up_rule (s : State) :
  let d := difficulty s in
  let d' := difficulty (scaleDifficultyOnScore s) in
  ((nextLevelAt d <= score d)%Z ->
     level d' = (level d + 1)%Z /\
     nextLevelAt d' = Qfloor (inject_Z (nextLevelAt d) * 1.35 + 120) /\
     enemyBaseSpeed d' = Qmin 4.2 (enemyBaseSpeed d + 0.15) /\
     enemyBaseSpeed d' <= 4.2 /\
     (enemyBaseSpeed d + 0.15 <= 4.2 ->
      enemyBaseSpeed d' == enemyBaseSpeed d + 0.15) /\
     spawnIntervalMs d' = Qmax 420 (spawnIntervalMs d - 40) /\
     420 <= spawnIntervalMs d' /\
     (420 <= spawnIntervalMs d - 40 ->
      spawnIntervalMs d' == spawnIntervalMs d - 40)) /\
  ((score d < nextLevelAt d)%Z -> scaleDifficultyOnScore s = s) /\
  (level d' <> level d <-> (nextLevelAt d <= score d)%Z) /\
  (level d' <= level d + 1)%Z.
Proof.
  cbv zeta. unfold scaleDifficultyOnScore.
  destruct (nextLevelAt (difficulty s) <=? score (difficulty s))%Z eqn:E.
  - apply Z.leb_le in E. cbn. unfold Math_min, Math_max, Math_floor.
    split; [|split; [|split]].
    + intros _. repeat split.
      * apply Q.le_min_l.
      * intro H. apply Q.min_r. exact H.
      * apply Q.le_max_l.
      * intro H. apply Q.max_r. exact H.
    + intro H. lia.
    + split; [intros _; exact E | intros _; lia].
    + lia.
  - apply Z.leb_gt in E.
    split; [|split; [|split]].
    + intro H. lia.
    + reflexivity.
    + split; [intro H; congruence | intro H; lia].
    + lia.
Qed.

(* ------------------------------------------------------------------ *)
(** ** Enemy collisions *)


Lemma hitScan_none (p : Player) (es : list Enemy) :
  forallb (fun x => negb (strikes p x)) es = true -> hitScan p es = None.
Proof.
  induction es as [|x es IH]; cbn; intro H; [reflexivity|].
  apply andb_true_iff in H as [Hx H]. rewrite (IH H).
  unfold strikes in Hx.
  destruct (e_active x); cbn in *; [|reflexivity].
  apply negb_true_iff in Hx. rewrite Hx. reflexivity.
Qed.


(** With no active slot overlapping the player the resolver does nothing. *)
Lemma no_hit_no_change (s : State) :
  forallb (fun x => negb (strikes (player s) x)) (enemies s) = true ->
  resolveEnemyCollisions s = s.
Proof.
  intro H. unfold resolveEnemyCollisions. now rewrite (hitScan_none _ _ H).
Qed.

(* ------------------------------------------------------------------ *)
(** ** Player velocity *)

Lemma updatePlayer_components (dt now : Q) (s : State) :
  let m := p_maxSpeed (player s) in
  let p' := player (updatePlayer dt now s) in
  0 <= m ->
  - m <= p_vx p' <= m /\ - m <= p_vy p' <= m.
Proof.
  cbv zeta. intro Hm.
  destruct (updatePlayer_velocity dt now s) as (_ & [vx ->] & [vy ->]).
  assert (Hle : - p_maxSpeed (player s) <= p_maxSpeed (player s)) by lra.
  repeat split; first [apply clamp_lower | apply clamp_upper, Hle].
Qed.

(** C5: with [maxSpeed] at its value 5.2, after [updatePlayer] (whatever the
    frame time, the input intent and the outcome of a dash) both velocity
    components lie in [-5.2, 5.2]. *)
Theorem velocity_components_clamped (dt now : Q) (s : State) :
  p_maxSpeed (player s) == 5.2 ->
  let p' := player (updatePlayer dt now s) in
  (-5.2 <= p_vx p' <= 5.2) /\ (-5.2 <= p_vy p' <= 5.2).
Proof.
  intro Hm. cbv zeta.
  assert (H0 : 0 <= p_maxSpeed (player s)) by (rewrite Hm; lra).
  destruct (updatePlayer_components dt now s H0) as [[A B] [C D]].
  rewrite Hm in A, B, C, D.
  repeat split; assumption.
Qed.

(** In a session, that is after [init] and any sequence of events, the
    speed limit is still 5.2, so the bounds hold in every frame. *)
Corollary velocity_clamped_in_session
  (w h : Q) (stored : Z) (saved : option Settings) (evs : list Event)
  (dt now : Q) :
  let s := run evs (init w h stored saved state0) in
  let p' := player (updatePlayer dt now s) in
  (-5.2 <= p_vx p' <= 5.2) /\ (-5.2 <= p_vy p' <= 5.2).
Proof.
  cbv zeta.
  set (s := run evs (init w h stored saved state0)).
  assert (Hm : p_maxSpeed (player s) = 5.2)
    by (unfold s; rewrite run_maxSpeed; destruct saved; reflexivity).
  assert (H0 : 0 <= p_maxSpeed (player s)) by (rewrite Hm; lra).
  pose proof (updatePlayer_components dt now s H0) as H.
  cbv zeta in H. rewrite Hm in H. exact H.
Qed.

(** C6 (amended): after [updatePlayer] each velocity component is within
    [maxSpeed] of zero, so the squared magnitude [vx^2 + vy^2] is at most
    [2 * maxSpeed^2]: the magnitude is bounded by [maxSpeed * sqrt 2], not
    by [maxSpeed]. *)
Theorem velocity_magnitude_bound (dt now : Q) (s : State) :
  0 <= p_maxSpeed (player s) ->
  let m := p_maxSpeed (player s) in
  let p' := player (updatePlayer dt now s) in
  p_vx p' * p_vx p' + p_vy p' * p_vy p' <= 2 * (m * m).
Proof.
  intro Hm. cbv zeta.
  destruct (updatePlayer_velocity dt now s) as (_ & [vx ->] & [vy ->]).
  pose proof (clamp_symmetric_sq vx _ Hm).
  pose proof (clamp_symmetric_sq vy _ Hm).
  lra.
Qed.

(* ------------------------------------------------------------------ *)
(** ** Frame baseline across pause and game over *)

Lemma frameDt_range (now : Q) (s : State) : 0 <= frameDt now s <= 40.
Proof.
  unfold frameDt. split; [apply clamp_lower | apply clamp_upper; lra].
Qed.

Lemma frameDt_capped (now : Q) (s : State) :
  ~ lastFrame (time s) == 0 ->
  lastFrame (time s) + 40 <= now ->
  frameDt now s == 40.
Proof.
  intros Hnz Hlate. unfold frameDt, orElse.
  destruct (Qeq_bool (lastFrame (time s)) 0) eqn:E.
  - apply Qeq_bool_iff in E. contradiction.
  - unfold clamp, Math_max, Math_min.
    rewrite (Q.min_l 40 (now - lastFrame (time s))) by lra.
    apply Q.max_r. lra.
Qed.

Lemma loop_in_play (now : Q) (s : State) :
  phase s = play -> running s = true ->
  loop now s = runSystems (frameDt now s) now (with_time (mkTime now) s).
Proof. intros Hp Hr. unfold loop. rewrite Hp, Hr. reflexivity. Qed.

Lemma loop_elsewhere (now : Q) (s : State) :
  phase s <> play \/ running s = false -> loop now s = s.
Proof.
  intros [H | H]; unfold loop.
  - destruct (phase s); try reflexivity. congruence.
  - rewrite H. now rewrite orb_true_r.
Qed.

Lemma resetRunState_frame (s : State) :
  phase (resetRunState s) = phase s /\
  running (resetRunState s) = running s /\
  time (resetRunState s) = time s.
Proof.
  unfold resetRunState, placeOrb.
  match goal with
  | |- context [placeOrbTries 50 ?a] =>
      destruct (placeOrbTries_frame 50 a) as (_ & _ & -> & _ & -> & ->)
  end.
  repeat split.
Qed.

(** C7 (amended): resuming from pause, and starting again from game over,
    enter [loop] at once with the current time and without touching
    [time.lastFrame] first.  The frame run by that call uses the elapsed time
    [clamp(now - (lastFrame || now), 0, 40)] measured from the baseline left
    by the last frame before the pause or the game over: it is 40 ms as soon
    as a set baseline is at least 40 ms old, and it is that frame which sets
    [lastFrame] to [now]. *)
Theorem reentry_uses_old_baseline (now : Q) (s : State) :
  (phase s = pause ->
   let s1 := with_running true (with_phase play s) in
   togglePause now s
   = runSystems (frameDt now s) now (with_time (mkTime now) s1) /\
   lastFrame (time (togglePause now s)) = now) /\
  (let s1 := resetRunState (with_running true (with_phase play s)) in
   startGame now s
   = runSystems (frameDt now s) now (with_time (mkTime now) s1) /\
   lastFrame (time (startGame now s)) = now) /\
  0 <= frameDt now s <= 40 /\
  (~ lastFrame (time s) == 0 -> lastFrame (time s) + 40 <= now ->
   frameDt now s == 40).
Proof.
  split; [|split; [|split]].
  - intro Hp. cbv zeta. unfold togglePause. rewrite Hp. cbn [Phase_eqb].
    rewrite loop_in_play by reflexivity.
    split; [reflexivity|].
    rewrite runSystems_time. reflexivity.
  - cbv zeta. unfold startGame.
    destruct (resetRunState_frame (with_running true (with_phase play s)))
      as (Hp & Hr & Ht).
    rewrite loop_in_play by (rewrite ?Hp, ?Hr; reflexivity).
    unfold frameDt at 1. rewrite Ht.
    split; [reflexivity|].
    rewrite runSystems_time. reflexivity.
  - apply frameDt_range.
  - apply frameDt_capped.
Qed.

(* ------------------------------------------------------------------ *)
(** ** Enemy type selection *)

Lemma spawnAtEdge_type (edge : Z) (w h : Q) (e : Enemy) (n : nat) :
  e_type (fst (spawnAtEdge edge w h e n)) = e_type e.
Proof.
  unfold spawnAtEdge.
  destruct (edge =? 0)%Z, (edge =? 1)%Z, (edge =? 2)%Z, (edge =? 3)%Z;
    reflexivity.
Qed.

(** The slot written by a successful [spawnEnemy] carries the type chosen
    from the level and the first random result of the call. *)
Lemma spawnEnemy_type (now : Q) (s : State) (e : Enemy) :
  find inactive (enemies s) = Some e ->
  exists e',
    enemies (spawnEnemy now s) = writeFirstInactive e' (enemies s) /\
    e_active e' = true /\
    e_type e' = chooseType (level (difficulty s)) (Math_random (drawn s)).
Proof.
  intro F. unfold spawnEnemy. rewrite F.
  match goal with
  | |- context [spawnAtEdge ?a ?b ?c ?d ?n] =>
      pose proof (spawnAtEdge_type a b c d n) as Ht;
      destruct (spawnAtEdge a b c d n) as [e1 n1]
  end.
  cbn in Ht. eexists. split; [reflexivity|]. cbn. split; [reflexivity|].
  exact Ht.
Qed.

(** C8 (amended): the type of a spawned enemy is decided by one random
    draw [roll] per spawn.  Below level 4 it is always normal; from level 4
    [roll < 0.25] yields fast; from level 6 the same [roll > 0.86] yields
    heavy; the two conditions test the same number and never hold together;
    in every other case the type is normal. *)
Theorem enemy_type_from_one_roll (lvl : Z) (roll : Q) :
  ((lvl < 4)%Z -> chooseType lvl roll = normal) /\
  ((4 <= lvl)%Z -> roll < 0.25 -> chooseType lvl roll = fast) /\
  ((6 <= lvl)%Z -> 0.86 < roll -> chooseType lvl roll = heavy) /\
  ~ (roll < 0.25 /\ 0.86 < roll) /\
  (chooseType lvl roll = fast -> (4 <= lvl)%Z /\ roll < 0.25) /\
  (chooseType lvl roll = heavy -> (6 <= lvl)%Z /\ 0.86 < roll) /\
  (forall now s e, find inactive (enemies s) = Some e ->
     exists e',
       enemies (spawnEnemy now s) = writeFirstInactive e' (enemies s) /\
       e_active e' = true /\
       e_type e' = chooseType (level (difficulty s)) (Math_random (drawn s))).
Proof.
  unfold chooseType.
  destruct (Qltb roll 0.25) eqn:Ef; destruct (Qltb 0.86 roll) eqn:Eh;
    try (apply Qltb_lt in Ef); try (apply Qltb_lt in Eh);
    try (assert (Nf : ~ roll < 0.25)
           by (intro X; apply Qltb_lt in X; congruence));
    try (assert (Nh : ~ 0.86 < roll)
           by (intro X; apply Qltb_lt in X; congruence));
    try (exfalso; lra);
    destruct (4 <=? lvl)%Z eqn:E4; destruct (6 <=? lvl)%Z eqn:E6;
    try (apply Z.leb_le in E4); try (apply Z.leb_gt in E4);
    try (apply Z.leb_le in E6); try (apply Z.leb_gt in E6);
    cbn;
    repeat match goal with
           | |- _ /\ _ => split
           end;
    try (intros; first [reflexivity | lia | tauto | discriminate
                       | (split; first [lia | assumption]) | lra]);
    try (intros now s e F; exact (spawnEnemy_type now s e F));
    try (intros [A B]; lra).
Qed.

(* ------------------------------------------------------------------ *)
(** ** Spawning into a saturated pool *)





(* ------------------------------------------------------------------ *)
(** ** Best score *)

(** C10: across any sequence of events of a session the best score never
    goes down.  A single event leaves it unchanged unless the game ends on a
    score strictly above it, in which case it becomes that final score;
    [endGame] sets it to [max(best, score)]; reset, orb pickup and level-up
    leave it as it is, and an enemy hit changes it only through [endGame]. *)
Theorem best_score_monotone (evs : list Event) (s : State) :
  (best (difficulty s) <= best (difficulty (run evs s)))%Z /\
  (forall ev, BestWrite s (handle ev s)) /\
  best (difficulty (endGame s))
  = Z.max (best (difficulty s)) (score (difficulty s)) /\
  best (difficulty (resetRunState s)) = best (difficulty s) /\
  best (difficulty (resolveOrbCollection s)) = best (difficulty s) /\
  best (difficulty (scaleDifficultyOnScore s)) = best (difficulty s) /\
  BestWrite s (resolveEnemyCollisions s).
Proof.
  split; [apply run_best_le|].
  split; [intro ev; apply handle_kept|].
  split.
  { rewrite endGame_best.
    destruct (best (difficulty s) <? score (difficulty s))%Z eqn:E;
      [apply Z.ltb_lt in E | apply Z.ltb_ge in E]; lia. }
  split; [apply resetRunState_stable|].
  split; [apply resolveOrbCollection_stable|].
  split; [apply scaleDifficultyOnScore_stable|].
  apply resolveEnemyCollisions_kept.
Qed.

End Properties.

(* ------------------------------------------------------------------ *)
(** ** Worked instances *)

Ltac by_computation :=
  vm_compute;
  first [ reflexivity
        | discriminate
        | let H := fresh in intro H; discriminate H
        | let H := fresh in intro H; apply H; reflexivity ].

(** C1, instance: standing on the orb with combo 0, the pickup brings combo
    to 1 and score to 22. *)
Lemma orb_pickup_gain_first :
  combo (difficulty (@resolveOrbCollection (demo [0.9; 0.9]) atOrb)) = 1%Z /\
  score (difficulty (@resolveOrbCollection (demo [0.9; 0.9]) atOrb)) = 22%Z.
Proof.
  destruct (@orb_pickup_gain (demo [0.9; 0.9]) atOrb eq_refl) as (Hc & Hs & _).
  split; [exact Hc | rewrite Hs, Hc; reflexivity].
Defined.

(** C1, counterexample: with combo 0 before the pickup the claim predicts a
    gain of [20 + min(30, 0*2) = 20]; the code awards 22. *)
Lemma orb_gain_not_from_prior_combo :
  aabbCollide (p_x (player atOrb)) (p_y (player atOrb)) (p_size (player atOrb))
    (o_x (orb atOrb)) (o_y (orb atOrb)) (o_size (orb atOrb)) = true /\
  combo (difficulty atOrb) = 0%Z /\
  score (difficulty atOrb) = 0%Z /\
  score (difficulty (@resolveOrbCollection (demo [0.9; 0.9]) atOrb)) = 22%Z /\
  Z.sub (score (difficulty (@resolveOrbCollection (demo [0.9; 0.9]) atOrb)))
        (score (difficulty atOrb))
  <> (20 + Z.min 30 (combo (difficulty atOrb) * 2))%Z.
Proof. repeat split; by_computation. Qed.

(** Three pickups in a row from combo 0 gain 22, 24 and 26: 72 in all. *)
Example three_pickups :
  let P := demo [] in
  let again := fun s => @resolveOrbCollection P (with_orb (orb atOrb) s) in
  map (fun s => (combo (difficulty s), score (difficulty s)))
      [again atOrb; again (again atOrb); again (again (again atOrb))]
  = [(1, 22); (2, 46); (3, 72)]%Z.
Proof. vm_compute. reflexivity. Qed.

(** C2, instance: a spawn, a tick, a reset and 30 more spawns keep the
    count within 22, and the 23rd spawn into the full pool changes nothing. *)
Lemma pool_capacity_instance :
  (activeCount
     (enemies
        (@runPool (demo [])
           ([OpSpawn 1000; OpTick 16; OpReset] ++ repeat (OpSpawn 2000) 30)
           ready)) <= 22)%nat /\
  @spawnEnemy (demo []) 5000 saturated = saturated.
Proof.
  destruct (@pool_capacity_respected (demo []) 800 600 0%Z None
              ([OpSpawn 1000; OpTick 16; OpReset] ++ repeat (OpSpawn 2000) 30))
    as (Hc & _ & Hfull).
  split; [exact Hc|].
  apply (Hfull 5000 saturated). reflexivity.
Defined.

(** C3, instance: at level 1 with threshold 200 a score of 10000 gives
    level 2 and threshold 390, not more. *)
Lemma level_up_once_when_overshooting :
  level (difficulty (scaleDifficultyOnScore overshoot)) = 2%Z /\
  nextLevelAt (difficulty (scaleDifficultyOnScore overshoot)) = 390%Z /\
  (nextLevelAt (difficulty (scaleDifficultyOnScore overshoot))
   <= score (difficulty (scaleDifficultyOnScore overshoot)))%Z.
Proof.
  destruct (level_up_rule overshoot) as (Hup & _).
  destruct Hup as (Hl & Hn & _); [by_computation|].
  split; [exact Hl | split; [rewrite Hn; reflexivity | by_computation]].
Defined.


(** C5, instance: a diagonal dash from rest; the burst of 9 is clamped to
    5.2 on each axis. *)
Lemma dash_components_clamped :
  p_maxSpeed (player dashDiagonal) == 5.2 /\
  -5.2 <= p_vx (player (@updatePlayer (demo []) 16.67 1000 dashDiagonal)) <= 5.2 /\
  -5.2 <= p_vy (player (@updatePlayer (demo []) 16.67 1000 dashDiagonal)) <= 5.2.
Proof.
  split; [reflexivity|].
  apply (@velocity_components_clamped (demo []) 16.67 1000 dashDiagonal).
  reflexivity.
Defined.

(** C6, instance of the amended bound at the same dash. *)
Lemma dash_magnitude_bound :
  0 <= p_maxSpeed (player dashDiagonal) /\
  p_vx (player (@updatePlayer (demo []) 16.67 1000 dashDiagonal))
  * p_vx (player (@updatePlayer (demo []) 16.67 1000 dashDiagonal))
  + p_vy (player (@updatePlayer (demo []) 16.67 1000 dashDiagonal))
    * p_vy (player (@updatePlayer (demo []) 16.67 1000 dashDiagonal))
  <= 2 * (5.2 * 5.2).
Proof.
  assert (H0 : 0 <= p_maxSpeed (player dashDiagonal)) by by_computation.
  split; [exact H0|].
  exact (@velocity_magnitude_bound (demo []) 16.67 1000 dashDiagonal H0).
Defined.

(** C6, counterexample: from rest, with right, down and dash pressed at
    t = 1000 ms, one update leaves vx = vy = 5.2, so vx^2 + vy^2 = 54.08,
    above maxSpeed^2 = 27.04: the magnitude is about 7.35, not at most
    5.2. *)
Lemma diagonal_dash_exceeds_maxSpeed :
  p_vx (player dashDiagonal) == 0 /\ p_vy (player dashDiagonal) == 0 /\
  p_vx (player (@updatePlayer (demo []) 16.67 1000 dashDiagonal)) == 5.2 /\
  p_vy (player (@updatePlayer (demo []) 16.67 1000 dashDiagonal)) == 5.2 /\
  ~ (p_vx (player (@updatePlayer (demo []) 16.67 1000 dashDiagonal))
     * p_vx (player (@updatePlayer (demo []) 16.67 1000 dashDiagonal))
     + p_vy (player (@updatePlayer (demo []) 16.67 1000 dashDiagonal))
       * p_vy (player (@updatePlayer (demo []) 16.67 1000 dashDiagonal))
     <= 5.2 * 5.2).
Proof. repeat split; by_computation. Qed.

(** Without any dash: right and down held for 25 frames of 16.67 ms from
    rest already give a magnitude above 5.2. *)
Example held_diagonal_exceeds_maxSpeed :
  let held :=
    with_input (mkInput false true false true false 0 0 false) dashDiagonal in
  let p := player (Nat.iter 25 (@updatePlayer (demo []) 16.67 0) held) in
  ~ (p_vx p * p_vx p + p_vy p * p_vy p <= 5.2 * 5.2) /\
  p_vx p <= 5.2 /\ p_vy p <= 5.2.
Proof. cbv zeta. repeat split; by_computation. Qed.

(** C7, instance: the run paused at t = 1010 ms with baseline 1000 and
    resumed at t = 6000 ms runs its first frame with 40 ms of elapsed time;
    the same happens when the lost game is started again. *)
Lemma resume_frame_takes_40ms :
  phase pausedGame = pause /\
  @togglePause (demo []) 6000 pausedGame
  = @runSystems (demo []) 40 6000
      (with_time (mkTime 6000) (with_running true (with_phase play pausedGame))) /\
  lastFrame (time (@togglePause (demo []) 6000 pausedGame)) = 6000 /\
  frameDt 6000 lostGame == 40.
Proof.
  destruct (@reentry_uses_old_baseline (demo []) 6000 pausedGame)
    as (Hresume & _ & _ & _).
  destruct (Hresume eq_refl) as (Hrun & Hlast).
  destruct (@reentry_uses_old_baseline (demo []) 6000 lostGame)
    as (_ & _ & _ & Hcap).
  split; [reflexivity|].
  split; [rewrite Hrun; by_computation|].
  split; [exact Hlast|].
  apply Hcap; by_computation.
Defined.

(** C7, counterexample: the run was paused with [lastFrame = 1000] and is
    resumed at t = 6000 ms.  The frame run by the resume uses 40 ms, not 0,
    and moves the first enemy down from y = -20, where a baseline reset to
    6000 before the frame would have left it. *)
Lemma resume_counts_paused_time :
  phase pausedGame = pause /\
  lastFrame (time pausedGame) == 1000 /\
  frameDt 6000 pausedGame == 40 /\
  firstEnemyY pausedGame == -20 /\
  firstEnemyY (@resumeWithFreshBaseline (demo []) 6000 pausedGame) == -20 /\
  ~ firstEnemyY (@togglePause (demo []) 6000 pausedGame) == -20 /\
  @togglePause (demo []) 6000 pausedGame
  <> @resumeWithFreshBaseline (demo []) 6000 pausedGame.
Proof.
  repeat split; by_computation.
Qed.

(** C8, instance: at level 6 a roll of 0.1 gives fast and a roll of 0.9
    gives heavy; the slot written by the spawn has the type of its roll. *)
Lemma enemy_type_instance :
  chooseType 3 0.1 = normal /\
  chooseType 6 0.1 = fast /\
  chooseType 6 0.9 = heavy /\
  firstEnemyType (@spawnEnemy (demo [0.9; 0.1; 0.5; 0.5]) 1000 veteran)
  = Some heavy.
Proof.
  destruct (@enemy_type_from_one_roll (demo [0.9; 0.1; 0.5; 0.5]) 3 0.1)
    as (Hlow & _).
  destruct (@enemy_type_from_one_roll (demo [0.9; 0.1; 0.5; 0.5]) 6 0.1)
    as (_ & Hfast & _).
  destruct (@enemy_type_from_one_roll (demo [0.9; 0.1; 0.5; 0.5]) 6 0.9)
    as (_ & _ & Hheavy & _ & _ & _ & Hspawn).
  split; [apply Hlow; by_computation|].
  split; [apply Hfast; by_computation|].
  split; [apply Hheavy; by_computation|].
  destruct (Hspawn 1000 veteran blankEnemy eq_refl) as (e' & He & _ & Ht).
  unfold firstEnemyType. rewrite He. cbn. rewrite Ht.
  by_computation.
Defined.

(** C8, counterexample: at level 6 let [Math.random] return 0.1 and then
    0.9.  Read as two independent draws, the first passes the fast test and
    the second the heavy test, so the claim gives heavy.  The code spawns a
    fast enemy: the type comes from the first number alone, and the second is
    the draw that picks the edge (edge 3, x = -20). *)
Lemma spawn_type_uses_one_draw :
  level (difficulty veteran) = 6%Z /\
  chooseTypeIndependent 6 0.1 0.9 = heavy /\
  firstEnemyType (@spawnEnemy (demo [0.1; 0.9; 0.5; 0.5]) 1000 veteran)
  = Some fast /\
  Some fast <> Some (chooseTypeIndependent 6 0.1 0.9) /\
  option_map e_x (hd_error (enemies
     (@spawnEnemy (demo [0.1; 0.9; 0.5; 0.5]) 1000 veteran))) = Some (-20) /\
  drawn (@spawnEnemy (demo [0.1; 0.9; 0.5; 0.5]) 1000 veteran) = 4%nat.
Proof. repeat split; by_computation. Qed.


(** C10, instance: a last life lost on 72 points with best 50 ends the game
    with best 72; a new run then keeps it. *)
Example best_after_a_lost_run :
  let last := with_difficulty (mkDifficulty 1 72 1 3 50 950 0 1.7 200) mobbed in
  let ended := resolveEnemyCollisions last in
  phase ended = over /\ best (difficulty ended) = 72%Z /\
  best (difficulty (@startGame (demo [0.9; 0.9]) 9000 ended)) = 72%Z.
Proof. cbv zeta. repeat split; by_computation. Qed.

(* ------------------------------------------------------------------ *)
(** * Further properties of the simulation core *)

(** ** Utilities *)

(** X1: [aabbCollide] is true exactly when the two squares intersect on both
    axes, edges included; it does not depend on which square is named
    first. *)
Theorem aabbCollide_overlap (ax ay sa bx by_ sb : Q) :
  (aabbCollide ax ay sa bx by_ sb = true <->
   bx <= ax + sa /\ ax <= bx + sb /\ by_ <= ay + sa /\ ay <= by_ + sb) /\
  aabbCollide ax ay sa bx by_ sb = aabbCollide bx by_ sb ax ay sa.
Proof.
  assert (N : forall a b, Qltb a b = false <-> b <= a).
  { intros a b. unfold Qltb. rewrite negb_false_iff. apply Qle_bool_iff. }
  split.
  - unfold aabbCollide. rewrite negb_true_iff.
    rewrite !orb_false_iff, !N. tauto.
  - unfold aabbCollide. f_equal.
    destruct (Qltb (ax + sa) bx), (Qltb (bx + sb) ax),
      (Qltb (ay + sa) by_), (Qltb (by_ + sb) ay); reflexivity.
Qed.

Lemma clamp_empty_range (v lo hi : Q) : hi < lo -> clamp v lo hi == lo.
Proof.
  intro A. unfold clamp, Math_max, Math_min. apply Q.max_l.
  eapply Qle_trans; [apply Q.le_min_l | apply Qlt_le_weak, A].
Qed.

(** X2: [clamp] returns the value itself inside the range, and [min] whenever
    the range is empty ([max < min]), whatever the value. *)
Theorem clamp_cases (v lo hi : Q) :
  (lo <= v <= hi -> clamp v lo hi == v) /\
  (v <= lo -> clamp v lo hi == lo) /\
  (lo <= hi -> hi <= v -> clamp v lo hi == hi) /\
  (hi < lo -> clamp v lo hi == lo).
Proof.
  unfold clamp, Math_max, Math_min.
  repeat split.
  - intros [A B]. rewrite (Q.min_r hi v B). apply Q.max_r, A.
  - intro A. apply Q.max_l.
    eapply Qle_trans; [apply Q.le_min_r | exact A].
  - intros A B. rewrite (Q.min_l hi v B). apply Q.max_r, A.
  - intro A. apply Q.max_l.
    eapply Qle_trans; [apply Q.le_min_l | apply Qlt_le_weak, A].
Qed.

Section More.

Context {platform : Platform}.

(** ** What the systems after [updatePlayer] leave alone *)

(** Phase, running flag, lives, player, bounds and settings. *)
Record Quiet (s s' : State) : Prop := mkQuiet {
  q_phase : phase s' = phase s;
  q_running : running s' = running s;
  q_lives : lives (difficulty s') = lives (difficulty s);
  q_player : player s' = player s;
  q_bounds : bounds s' = bounds s;
  q_settings : settings_ s' = settings_ s }.

Lemma Quiet_refl (s : State) : Quiet s s.
Proof. split; reflexivity. Qed.

Lemma Quiet_trans (a b c : State) : Quiet a b -> Quiet b c -> Quiet a c.
Proof. intros [] []. split; congruence. Qed.

Lemma placeOrbTries_quiet (tries : nat) (s : State) :
  Quiet s (placeOrbTries tries s).
Proof.
  revert s. induction tries as [|k IH]; intro s; cbn.
  - split; reflexivity.
  - destruct (Qgeb _ _).
    + split; reflexivity.
    + destruct (IH (with_drawn (S (S (drawn s))) s)).
      split; assumption.
Qed.

Lemma placeOrb_quiet (s : State) : Quiet s (placeOrb s).
Proof. apply placeOrbTries_quiet. Qed.

Lemma spawnEnemy_quiet (now : Q) (s : State) : Quiet s (spawnEnemy now s).
Proof.
  unfold spawnEnemy.
  destruct (find inactive (enemies s)); [|apply Quiet_refl].
  destruct (spawnAtEdge _ _ _ _ _). split; reflexivity.
Qed.

Lemma extraSpawn_quiet (lvl : Z) (p now : Q) (s : State) :
  Quiet s (extraSpawn lvl p now s).
Proof.
  unfold extraSpawn.
  destruct (lvl <=? _)%Z; [|apply Quiet_refl].
  destruct (Qltb _ _).
  - eapply Quiet_trans; [|apply spawnEnemy_quiet]. split; reflexivity.
  - split; reflexivity.
Qed.

Lemma maybeSpawnEnemies_quiet (now : Q) (s : State) :
  Quiet s (maybeSpawnEnemies now s).
Proof.
  unfold maybeSpawnEnemies.
  destruct (spawnDue now s); [|apply Quiet_refl].
  eapply Quiet_trans; [apply spawnEnemy_quiet|].
  eapply Quiet_trans; apply extraSpawn_quiet.
Qed.

Lemma updateEnemies_quiet (dt : Q) (s : State) : Quiet s (updateEnemies dt s).
Proof. split; reflexivity. Qed.

Lemma resolveOrbCollection_quiet (s : State) :
  Quiet s (resolveOrbCollection s).
Proof.
  unfold resolveOrbCollection.
  destruct (aabbCollide _ _ _ _ _ _); [|apply Quiet_refl].
  eapply Quiet_trans; [|apply placeOrb_quiet]. split; reflexivity.
Qed.

Lemma scaleDifficultyOnScore_quiet (s : State) :
  Quiet s (scaleDifficultyOnScore s).
Proof.
  unfold scaleDifficultyOnScore.
  destruct (_ <=? _)%Z; split; reflexivity.
Qed.

(** [updatePlayer] writes the player and the input only. *)
Lemma updatePlayer_frame (dt now : Q) (s : State) :
  let s' := updatePlayer dt now s in
  phase s' = phase s /\ running s' = running s /\
  difficulty s' = difficulty s /\ enemies s' = enemies s /\
  bounds s' = bounds s /\ settings_ s' = settings_ s /\
  orb s' = orb s /\ drawn s' = drawn s /\ time s' = time s.
Proof.
  unfold updatePlayer.
  destruct (mouseFollow (settings_ s) && i_hasMouse (input s));
    destruct (i_dash (input s)); cbn;
    try destruct (Qgeb _ _); cbn; repeat split.
Qed.

(** The player's size, constants and dash settings survive [updatePlayer]. *)
Lemma updatePlayer_constants (dt now : Q) (s : State) :
  let p := player s in
  let p' := player (updatePlayer dt now s) in
  p_size p' = p_size p /\ p_speed p' = p_speed p /\
  p_friction p' = p_friction p /\
  dash_cooldownMs (p_dash p') = dash_cooldownMs (p_dash p) /\
  dash_burst (p_dash p') = dash_burst (p_dash p).
Proof.
  unfold updatePlayer.
  destruct (mouseFollow (settings_ s) && i_hasMouse (input s));
    destruct (i_dash (input s)); cbn;
    try destruct (Qgeb _ _); cbn; repeat split.
Qed.

(** ** Player position and dash *)

(** The last write to the position in [updatePlayer] is the boundary
    clamp. *)
Lemma updatePlayer_position (dt now : Q) (s : State) :
  let p := player s in
  let p' := player (updatePlayer dt now s) in
  (exists v, p_x p' = clamp v 2 (b_w (bounds s) - p_size p - 2)) /\
  (exists v, p_y p' = clamp v 2 (b_h (bounds s) - p_size p - 2)).
Proof.
  unfold updatePlayer.
  destruct (mouseFollow (settings_ s) && i_hasMouse (input s));
    destruct (i_dash (input s)); cbn;
    try destruct (Qgeb _ _); cbn; split; eexists; reflexivity.
Qed.

(** X3: After [updatePlayer] the player is at least 2 px from the left and top
    edges, and, when the playfield is wide and high enough to hold the player
    with its 2 px margins, no further than [bounds - size - 2] on either
    axis. *)
Theorem player_stays_in_playfield (dt now : Q) (s : State) :
  let p := player s in
  let p' := player (updatePlayer dt now s) in
  2 <= b_w (bounds s) - p_size p - 2 ->
  2 <= b_h (bounds s) - p_size p - 2 ->
  2 <= p_x p' <= b_w (bounds s) - p_size p - 2 /\
  2 <= p_y p' <= b_h (bounds s) - p_size p - 2.
Proof.
  cbv zeta. intros Hw Hh.
  destruct (updatePlayer_position dt now s) as ([vx ->] & [vy ->]).
  repeat split; first [apply clamp_lower | apply clamp_upper; assumption].
Qed.

(** X4: In a playfield too small for the player the position clamp has an empty
    range and pins the player at 2 on that axis. *)
Theorem player_pinned_in_tiny_playfield (dt now : Q) (s : State) :
  let p := player s in
  let p' := player (updatePlayer dt now s) in
  (b_w (bounds s) - p_size p - 2 < 2 -> p_x p' == 2) /\
  (b_h (bounds s) - p_size p - 2 < 2 -> p_y p' == 2).
Proof.
  cbv zeta.
  destruct (updatePlayer_position dt now s) as ([vx ->] & [vy ->]).
  split; intro H; apply clamp_empty_range; exact H.
Qed.

(** The dash flag is one-shot: whatever happens, [updatePlayer] leaves it
    cleared, and it never touches the direction flags or the pointer. *)
Lemma dash_flag_consumed (dt now : Q) (s : State) :
  input (updatePlayer dt now s) = with_i_dash false (input s).
Proof.
  unfold updatePlayer.
  destruct (mouseFollow (settings_ s) && i_hasMouse (input s));
    destruct (i_dash (input s)) eqn:E; cbn;
    try destruct (Qgeb _ _); cbn; try reflexivity;
    destruct (input s); cbn in *; subst; reflexivity.
Qed.

Lemma cooldown_blocks_dash (dt now : Q) (s : State) :
  now - dash_lastDashAt (p_dash (player s))
  < dash_cooldownMs (p_dash (player s)) ->
  updatePlayer dt now s
  = updatePlayer dt now (with_input (with_i_dash false (input s)) s).
Proof.
  intro Hcd.
  assert (Hno : Qgeb (now - dash_lastDashAt (p_dash (player s)))
                     (dash_cooldownMs (p_dash (player s))) = false).
  { destruct (Qgeb _ _) eqn:E; [|reflexivity].
    apply Qgeb_ge in E. exfalso. exact (Qlt_not_le _ _ Hcd E). }
  destruct s as [ph rn bd pl ob es sz df inp st tm dr].
  destruct inp as [iu idn il ir idash mx my hm].
  unfold updatePlayer. cbn in *.
  destruct (mouseFollow st && hm); destruct idash; cbn;
    rewrite ?Hno; reflexivity.
Qed.

Lemma updatePlayer_without_dash (dt now : Q) (s : State) :
  i_dash (input s) = false ->
  p_dash (player (updatePlayer dt now s)) = p_dash (player s).
Proof.
  intro H. unfold updatePlayer.
  destruct (mouseFollow (settings_ s) && i_hasMouse (input s));
    rewrite H; reflexivity.
Qed.

(** X5: A dash requested while the cooldown is running is ignored: the player
    ends the update exactly as if the key had not been pressed, so the
    velocity gets no burst, and [lastDashAt] keeps its value. *)
Theorem dash_on_cooldown_ignored (dt now : Q) (s : State) :
  now - dash_lastDashAt (p_dash (player s))
  < dash_cooldownMs (p_dash (player s)) ->
  let quiet := with_input (with_i_dash false (input s)) s in
  player (updatePlayer dt now s) = player (updatePlayer dt now quiet) /\
  dash_lastDashAt (p_dash (player (updatePlayer dt now s)))
  = dash_lastDashAt (p_dash (player s)) /\
  i_dash (input (updatePlayer dt now s)) = false.
Proof.
  intro Hcd. cbv zeta.
  rewrite (cooldown_blocks_dash dt now s Hcd).
  split; [reflexivity|].
  split.
  - rewrite updatePlayer_without_dash; [reflexivity|].
    destruct (input s); reflexivity.
  - rewrite dash_flag_consumed. destruct (input s); reflexivity.
Qed.

(** X6: A dash that succeeds stamps [lastDashAt] with the current time, and
    from then on every dash requested less than [cooldownMs] later is
    ignored. *)
Theorem dash_starts_cooldown (dt now : Q) (s : State) :
  i_dash (input s) = true ->
  dash_cooldownMs (p_dash (player s))
  <= now - dash_lastDashAt (p_dash (player s)) ->
  let s' := updatePlayer dt now s in
  dash_lastDashAt (p_dash (player s')) = now /\
  forall dt' now' i,
    now' - now < dash_cooldownMs (p_dash (player s)) ->
    updatePlayer dt' now' (with_input (with_i_dash true i) s')
    = updatePlayer dt' now' (with_input (with_i_dash false i) s').
Proof.
  intros Hd Hready. cbv zeta.
  assert (Hlast : dash_lastDashAt (p_dash (player (updatePlayer dt now s)))
                  = now).
  { apply Qgeb_ge in Hready. unfold updatePlayer.
    destruct (mouseFollow (settings_ s) && i_hasMouse (input s));
      rewrite Hd; cbn; rewrite Hready; reflexivity. }
  split; [exact Hlast|].
  intros dt' now' i Hsoon.
  destruct (updatePlayer_constants dt now s) as (_ & _ & _ & Hc & _).
  rewrite (cooldown_blocks_dash dt' now'
             (with_input (with_i_dash true i) (updatePlayer dt now s))).
  - cbn. destruct i; reflexivity.
  - cbn. rewrite Hlast, Hc. exact Hsoon.
Qed.

(** X7: With pointer-follow on and a pointer position known, the direction
    keys have no effect on the player. *)
Theorem pointer_mode_ignores_keys (dt now : Q) (s : State) (u d l r : bool) :
  mouseFollow (settings_ s) = true ->
  i_hasMouse (input s) = true ->
  player (updatePlayer dt now (with_input (with_dirs u d l r (input s)) s))
  = player (updatePlayer dt now s).
Proof.
  intros Hm Hp. unfold updatePlayer. cbn. rewrite Hm, Hp. cbn.
  destruct (i_dash (input s)); cbn; [destruct (Qgeb _ _)|]; reflexivity.
Qed.

(** ** Enemy pool: tick and spawn *)

Lemma updateEnemy_cases (scale w h : Q) (e : Enemy) :
  let e' := updateEnemy scale w h e in
  (e_active e = false -> e' = e) /\
  (e_active e' = true ->
   e_active e = true /\
   e_x e' = e_x e + e_vx e * scale /\ e_y e' = e_y e + e_vy e * scale /\
   - (60) <= e_x e' <= w + 60 /\ - (60) <= e_y e' <= h + 60) /\
  (e_active e = true -> e_active e' = false ->
   e_x e' = - (999) /\ e_y e' = - (999)) /\
  e_vx e' = e_vx e /\ e_vy e' = e_vy e /\
  e_size e' = e_size e /\ e_type e' = e_type e.
Proof.
  assert (N : forall a b, Qltb a b = false -> b <= a).
  { intros a b. unfold Qltb. rewrite negb_false_iff. apply Qle_bool_iff. }
  cbv zeta. unfold updateEnemy.
  destruct (e_active e) eqn:Ea; cbn.
  - destruct (Qltb (e_x e + e_vx e * scale) (- (60))) eqn:A;
      destruct (Qltb (w + 60) (e_x e + e_vx e * scale)) eqn:B;
      destruct (Qltb (e_y e + e_vy e * scale) (- (60))) eqn:C;
      destruct (Qltb (h + 60) (e_y e + e_vy e * scale)) eqn:D;
      cbn; repeat split; intros;
      first [reflexivity | congruence | (apply N; assumption)].
  - repeat split; intros; first [reflexivity | congruence].
Qed.

(** X8: A tick never activates a slot and leaves inactive slots exactly as
    they are; every slot still active after it has moved by its velocity
    times [dt / 16.67] and lies within 60 px of the playfield. *)
Theorem tick_only_moves_or_retires (dt : Q) (s : State) (k : nat) (e : Enemy) :
  nth_error (enemies s) k = Some e ->
  let w := b_w (bounds s) in
  let h := b_h (bounds s) in
  exists e',
    nth_error (enemies (updateEnemies dt s)) k = Some e' /\
    (e_active e = false -> e' = e) /\
    (e_active e' = true ->
     e_active e = true /\
     e_x e' = e_x e + e_vx e * (dt / 16.67) /\
     e_y e' = e_y e + e_vy e * (dt / 16.67) /\
     - (60) <= e_x e' <= w + 60 /\ - (60) <= e_y e' <= h + 60) /\
    (e_active e = true -> e_active e' = false ->
     e_x e' = - (999) /\ e_y e' = - (999)).
Proof.
  intro Hk. cbv zeta.
  exists (updateEnemy (dt / 16.67) (b_w (bounds s)) (b_h (bounds s)) e).
  split.
  - unfold updateEnemies. cbn. rewrite nth_error_map, Hk. reflexivity.
  - destruct (updateEnemy_cases (dt / 16.67) (b_w (bounds s))
                (b_h (bounds s)) e) as (A & B & C & _).
    repeat split; try apply A; try apply B; try apply C; assumption.
Qed.

Lemma activeCount_map_updateEnemy (scale w h : Q) (es : list Enemy) :
  (activeCount (map (updateEnemy scale w h) es) <= activeCount es)%nat.
Proof.
  unfold activeCount. induction es as [|e es IH]; cbn; [lia|].
  destruct (updateEnemy_cases scale w h e) as (A & B & _).
  destruct (e_active (updateEnemy scale w h e)) eqn:E'.
  - destruct (B eq_refl) as (-> & _). cbn. lia.
  - destruct (e_active e); cbn; lia.
Qed.

(** The number of active slots does not grow in a tick. *)
Lemma tick_activeCount (dt : Q) (s : State) :
  (activeCount (enemies (updateEnemies dt s)) <= activeCount (enemies s))%nat.
Proof. apply activeCount_map_updateEnemy. Qed.

Lemma writeFirstInactive_activeCount (e' : Enemy) (es : list Enemy) :
  find inactive es <> None -> e_active e' = true ->
  activeCount (writeFirstInactive e' es) = S (activeCount es).
Proof.
  unfold activeCount. intros Hf Ha.
  induction es as [|e es IH]; cbn in *; [congruence|].
  unfold inactive in *.
  destruct (e_active e) eqn:E; cbn in *.
  - rewrite E. cbn. f_equal. apply IH, Hf.
  - rewrite Ha. reflexivity.
Qed.

Lemma writeFirstInactive_nth (e' : Enemy) (es : list Enemy) (k : nat) (e : Enemy) :
  nth_error es k = Some e -> e_active e = true ->
  nth_error (writeFirstInactive e' es) k = Some e.
Proof.
  revert k. induction es as [|x es IH]; intros k Hk Ha; cbn.
  - destruct k; discriminate.
  - destruct k as [|k]; cbn in Hk.
    + injection Hk as ->. unfold inactive. rewrite Ha. reflexivity.
    + destruct (inactive x); cbn; [exact Hk | apply IH; assumption].
Qed.

(** X9: A spawn that finds a free slot activates exactly one more slot, keeps
    every slot that was active as it is, and records the spawn time. *)
Theorem spawn_activates_one (now : Q) (s : State) :
  find inactive (enemies s) <> None ->
  let s' := spawnEnemy now s in
  activeCount (enemies s') = S (activeCount (enemies s)) /\
  lastSpawnAt (difficulty s') = now /\
  (forall k e, nth_error (enemies s) k = Some e -> e_active e = true ->
               nth_error (enemies s') k = Some e).
Proof.
  intro Hf. cbv zeta. unfold spawnEnemy.
  destruct (find inactive (enemies s)) as [e0|] eqn:F; [|congruence].
  destruct (spawnAtEdge _ _ _ _ _) as [e1 n]. cbn.
  split; [|split].
  - apply writeFirstInactive_activeCount; [congruence | reflexivity].
  - reflexivity.
  - intros k e Hk Ha. apply writeFirstInactive_nth; assumption.
Qed.

Lemma spawnEnemy_activeCount (now : Q) (s : State) :
  (activeCount (enemies (spawnEnemy now s)) <= S (activeCount (enemies s)))%nat
  /\ level (difficulty (spawnEnemy now s)) = level (difficulty s).
Proof.
  destruct (find inactive (enemies s)) as [e0|] eqn:F.
  - unfold spawnEnemy. rewrite F.
    destruct (spawnAtEdge _ _ _ _ _).
    cbn [enemies with_enemies with_difficulty with_drawn difficulty].
    split; [|reflexivity].
    rewrite writeFirstInactive_activeCount; [lia | congruence | reflexivity].
  - rewrite (spawnEnemy_saturated now s F). split; [lia | reflexivity].
Qed.

Lemma extraSpawn_activeCount (lvl : Z) (p now : Q) (s : State) :
  (activeCount (enemies (extraSpawn lvl p now s))
   <= S (activeCount (enemies s)))%nat /\
  level (difficulty (extraSpawn lvl p now s)) = level (difficulty s) /\
  ((level (difficulty s) < lvl)%Z ->
   activeCount (enemies (extraSpawn lvl p now s)) = activeCount (enemies s)).
Proof.
  unfold extraSpawn.
  destruct (lvl <=? level (difficulty s))%Z eqn:E.
  - apply Z.leb_le in E.
    destruct (Qltb _ _).
    + destruct (spawnEnemy_activeCount now (with_drawn (S (drawn s)) s))
        as [A B].
      cbn in A, B. split; [exact A | split; [exact B | intro; lia]].
    + split; [apply Nat.le_succ_diag_r | split; intros; reflexivity].
  - split; [apply Nat.le_succ_diag_r | split; intros; reflexivity].
Qed.

(** X11: One call of [maybeSpawnEnemies] does nothing before the spawn interval
    has elapsed and otherwise activates at most three slots: at most one
    below level 7 and at most two below level 10. *)
Theorem spawns_per_tick_bounded (now : Q) (s : State) :
  let n := activeCount (enemies s) in
  let n' := activeCount (enemies (maybeSpawnEnemies now s)) in
  (now - lastSpawnAt (difficulty s) < spawnIntervalMs (difficulty s) ->
   maybeSpawnEnemies now s = s) /\
  (n' <= n + 3)%nat /\
  ((level (difficulty s) < 10)%Z -> (n' <= n + 2)%nat) /\
  ((level (difficulty s) < 7)%Z -> (n' <= n + 1)%nat).
Proof.
  cbv zeta. unfold maybeSpawnEnemies, spawnDue.
  destruct (Qgeb (now - lastSpawnAt (difficulty s))
                 (spawnIntervalMs (difficulty s))) eqn:E.
  - destruct (spawnEnemy_activeCount now s) as [A1 L1].
    destruct (extraSpawn_activeCount 7 0.30 now (spawnEnemy now s))
      as (A2 & L2 & Z2).
    destruct (extraSpawn_activeCount 10 0.18 now
                (extraSpawn 7 0.30 now (spawnEnemy now s)))
      as (A3 & L3 & Z3).
    rewrite L2, L1 in Z3. rewrite L1 in Z2.
    split; [|split; [|split]].
    + intro H. apply Qgeb_ge in E. exfalso. exact (Qlt_not_le _ _ H E).
    + lia.
    + intro H. rewrite (Z3 H). lia.
    + intro H. rewrite Z3 by lia. rewrite Z2 by lia. lia.
  - repeat split; intros; lia.
Qed.

Lemma edge_index (r : Q) :
  0 <= r < 1 ->
  let edge := Math_floor (rand r 0 4) in
  edge = 0%Z \/ edge = 1%Z \/ edge = 2%Z \/ edge = 3%Z.
Proof.
  intros [H0 H1]. cbv zeta. unfold Math_floor, rand.
  set (x := r * (4 - 0) + 0).
  assert (Hx0 : 0 <= x) by (unfold x; lra).
  assert (Hx4 : x < 4) by (unfold x; lra).
  assert (L : (0 <= Qfloor x)%Z).
  { change 0%Z with (Qfloor 0). apply Qfloor_resp_le, Hx0. }
  assert (U : (Qfloor x < 4)%Z).
  { rewrite Zlt_Qlt. eapply Qle_lt_trans; [apply Qfloor_le | exact Hx4]. }
  lia.
Qed.

Lemma rand_within (r lo hi : Q) :
  0 <= r < 1 -> lo <= hi -> lo <= rand r lo hi <= hi.
Proof. intros [H0 H1] H. unfold rand. split; nra. Qed.

(** X10: When [Math.random] returns values in [0, 1) and the playfield is at
    least 40 px each way, a successful spawn draws exactly four random
    numbers and puts the enemy 20 px outside one of the four edges, between
    the 20 px margins along that edge; its size is 24 if heavy and 18
    otherwise. *)
Theorem spawn_lands_outside_an_edge (now : Q) (s : State) (e0 : Enemy) :
  (forall n, 0 <= Math_random n < 1) ->
  40 <= b_w (bounds s) -> 40 <= b_h (bounds s) ->
  find inactive (enemies s) = Some e0 ->
  let w := b_w (bounds s) in
  let h := b_h (bounds s) in
  exists e',
    enemies (spawnEnemy now s) = writeFirstInactive e' (enemies s) /\
    drawn (spawnEnemy now s) = (drawn s + 4)%nat /\
    e_active e' = true /\
    e_size e' = (if EnemyType_eqb (e_type e') heavy then 24 else 18) /\
    ((e_y e' == -20 /\ 20 <= e_x e' <= w - 20) \/
     (e_x e' == w + 20 /\ 20 <= e_y e' <= h - 20) \/
     (e_y e' == h + 20 /\ 20 <= e_x e' <= w - 20) \/
     (e_x e' == -20 /\ 20 <= e_y e' <= h - 20)).
Proof.
  intros Hr Hw Hh F. cbv zeta.
  unfold spawnEnemy. rewrite F.
  pose proof (rand_within (Math_random (S (S (drawn s)))) 20
                (b_w (bounds s) - 20) (Hr _)) as Rw.
  pose proof (rand_within (Math_random (S (S (drawn s)))) 20
                (b_h (bounds s) - 20) (Hr _)) as Rh.
  destruct (edge_index (Math_random (S (drawn s))) (Hr _))
    as [E | [E | [E | E]]]; cbv zeta in E; rewrite E;
    unfold spawnAtEdge; cbn;
    (eexists; split; [reflexivity|]; cbn;
     split; [rewrite Nat.add_comm; reflexivity|];
     split; [reflexivity|];
     split; [reflexivity|]).
  - left. split; [reflexivity | apply Rw; lra].
  - right; left. split; [reflexivity | apply Rh; lra].
  - right; right; left. split; [reflexivity | apply Rw; lra].
  - right; right; right. split; [reflexivity | apply Rh; lra].
Qed.

(** ** Scoring and difficulty *)

(** X12: With a non-negative combo, a pickup is worth between 22 and 50 points,
    never less than the previous one in the same streak would have given,
    and exactly 50 from the fifteenth pickup of a streak on. *)
Theorem pickup_gain_range (s : State) :
  let p := player s in
  let o := orb s in
  let d := difficulty s in
  let d' := difficulty (resolveOrbCollection s) in
  aabbCollide (p_x p) (p_y p) (p_size p) (o_x o) (o_y o) (o_size o) = true ->
  (0 <= combo d)%Z ->
  (22 <= score d' - score d <= 50)%Z /\
  (gainedFor (combo d) <= score d' - score d)%Z /\
  ((14 <= combo d)%Z -> (score d' - score d = 50)%Z).
Proof.
  cbv zeta. intros Hhit Hc.
  unfold resolveOrbCollection. rewrite Hhit, placeOrb_difficulty.
  cbn [difficulty with_difficulty score combo with_score with_combo].
  unfold gainedFor. repeat split; lia.
Qed.

(** The tuning ranges of a run: level at least 1, score and combo not
    negative, at most 3 lives, spawn interval within [420, 950], enemy base
    speed within [1.7, 4.2], next threshold at least 200. *)
Definition Tuned (d : Difficulty) : Prop :=
  (1 <= level d)%Z /\ (0 <= score d)%Z /\ (0 <= combo d)%Z /\
  (lives d <= 3)%Z /\
  420 <= spawnIntervalMs d <= 950 /\
  1.7 <= enemyBaseSpeed d <= 4.2 /\
  (200 <= nextLevelAt d)%Z.

Lemma next_threshold_grows (n : Z) :
  (0 <= n)%Z -> (n < Math_floor (inject_Z n * 1.35 + 120))%Z.
Proof.
  intro H. unfold Math_floor.
  assert (Hq : 0 <= inject_Z n) by (rewrite Zle_Qle in H; exact H).
  assert (L : inject_Z (n + 1) <= inject_Z n * 1.35 + 120).
  { rewrite inject_Z_plus. change (inject_Z 1) with 1. lra. }
  apply Qfloor_resp_le in L. rewrite Qfloor_Z in L. lia.
Qed.

Lemma scaleDifficultyOnScore_steps (s : State) :
  let d := difficulty s in
  let d' := difficulty (scaleDifficultyOnScore s) in
  420 <= spawnIntervalMs d -> enemyBaseSpeed d <= 4.2 ->
  (0 <= nextLevelAt d)%Z ->
  (420 <= spawnIntervalMs d' <= spawnIntervalMs d) /\
  (enemyBaseSpeed d <= enemyBaseSpeed d' <= 4.2) /\
  (level d <= level d' <= level d + 1)%Z /\
  (nextLevelAt d <= nextLevelAt d')%Z /\
  ((nextLevelAt d <= score d)%Z -> (nextLevelAt d < nextLevelAt d')%Z) /\
  score d' = score d /\ combo d' = combo d /\ lives d' = lives d.
Proof.
  cbv zeta. intros Hi He Hn.
  unfold scaleDifficultyOnScore.
  destruct (nextLevelAt (difficulty s) <=? score (difficulty s))%Z eqn:E.
  - assert (G := next_threshold_grows (nextLevelAt (difficulty s)) Hn).
    apply Z.leb_le in E.
    unfold Math_max, Math_min in *.
    cbn [difficulty with_difficulty level score lives combo
         spawnIntervalMs enemyBaseSpeed nextLevelAt].
    assert (I1 : 420 <= Qmax 420 (spawnIntervalMs (difficulty s) - 40))
      by apply Q.le_max_l.
    assert (I2 : Qmax 420 (spawnIntervalMs (difficulty s) - 40)
                 <= spawnIntervalMs (difficulty s))
      by (apply Q.max_lub; lra).
    assert (S1 : Qmin 4.2 (enemyBaseSpeed (difficulty s) + 0.15) <= 4.2)
      by apply Q.le_min_l.
    assert (S2 : enemyBaseSpeed (difficulty s)
                 <= Qmin 4.2 (enemyBaseSpeed (difficulty s) + 0.15))
      by (apply Q.min_glb; lra).
    repeat split; first [assumption | lia | reflexivity].
  - apply Z.leb_gt in E.
    repeat split; first [assumption | lia | lra | reflexivity].
Qed.

Lemma scaleDifficultyOnScore_tuned (s : State) :
  Tuned (difficulty s) -> Tuned (difficulty (scaleDifficultyOnScore s)).
Proof.
  intros (Hl & Hs & Hc & Hv & [Hi1 Hi2] & [He1 He2] & Hn).
  destruct (scaleDifficultyOnScore_steps s Hi1 He2 ltac:(lia))
    as ([A1 A2] & [B1 B2] & [C1 C2] & D & _ & Es & Ec & El).
  unfold Tuned. rewrite Es, Ec, El.
  repeat split; first [assumption | lia | lra].
Qed.

(** X13: A level-up never eases the game and needs a strictly higher score next
    time: within the tuning ranges the interval does not grow, the speed does
    not drop, both stay in range, and the new threshold is above the old. *)
Theorem level_up_is_monotone (s : State) :
  let d := difficulty s in
  let d' := difficulty (scaleDifficultyOnScore s) in
  Tuned d ->
  Tuned d' /\
  spawnIntervalMs d' <= spawnIntervalMs d /\
  enemyBaseSpeed d <= enemyBaseSpeed d' /\
  (level d <= level d')%Z /\
  (nextLevelAt d <= nextLevelAt d')%Z /\
  ((nextLevelAt d <= score d)%Z -> (nextLevelAt d < nextLevelAt d')%Z).
Proof.
  cbv zeta. intro T.
  split; [apply scaleDifficultyOnScore_tuned, T|].
  destruct T as (Hl & Hs & Hc & Hv & [Hi1 Hi2] & [He1 He2] & Hn).
  destruct (scaleDifficultyOnScore_steps s Hi1 He2 ltac:(lia))
    as ([A1 A2] & [B1 B2] & [C1 C2] & D & F & _).
  repeat split; assumption.
Qed.

(** ** Hits, lives and game over *)

(** Reduce record reads and writes, leaving arithmetic as written. *)
Ltac state_fields :=
  cbv beta iota zeta delta
    [phase running bounds player orb enemies enemyPoolSize difficulty input
     settings_ time drawn
     with_phase with_running with_bounds with_player with_orb with_enemies
     with_difficulty with_input with_settings with_time with_drawn
     level score lives combo best spawnIntervalMs lastSpawnAt enemyBaseSpeed
     nextLevelAt with_score with_lives with_combo with_best with_lastSpawnAt
     p_x p_y p_vx p_vy p_size p_speed p_maxSpeed p_friction p_dash
     with_velocity with_position with_dash negb].

(** Everything a call of [resolveEnemyCollisions] can do. *)
Lemma hit_outcome (s : State) :
  let s' := resolveEnemyCollisions s in
  let d := difficulty s in
  let d' := difficulty s' in
  let p := player s in
  let p' := player s' in
  (hitScan (player s) (enemies s) = None -> s' = s) /\
  (hitScan (player s) (enemies s) <> None ->
   lives d' = (lives d - 1)%Z /\ combo d' = 0%Z /\
   ((lives d <= 1)%Z -> phase s' = over /\ running s' = false) /\
   ((1 < lives d)%Z -> phase s' = phase s /\ running s' = running s) /\
   (reducedMotion (settings_ s) = true -> p' = p) /\
   (reducedMotion (settings_ s) = false ->
    p' = with_velocity (p_vx p * -0.7) (p_vy p * -0.7) p)) /\
  level d' = level d /\ score d' = score d /\
  spawnIntervalMs d' = spawnIntervalMs d /\
  enemyBaseSpeed d' = enemyBaseSpeed d /\
  nextLevelAt d' = nextLevelAt d /\ lastSpawnAt d' = lastSpawnAt d /\
  bounds s' = bounds s /\ settings_ s' = settings_ s /\
  input s' = input s /\ orb s' = orb s /\ drawn s' = drawn s.
Proof.
  destruct s as [ph rn bd pl ob es0 sz df inp st tm dr].
  destruct df as [lv sc li co be si la eb nx].
  cbv zeta. unfold resolveEnemyCollisions, endGame, showOverlayScreen.
  cbn [player enemies].
  destruct (hitScan pl es0) as [es|];
    [|repeat split; intros; first [reflexivity | congruence]].
  state_fields.
  destruct (reducedMotion st) eqn:R; state_fields;
    destruct (li - 1 <=? 0)%Z eqn:L;
    [apply Z.leb_le in L | apply Z.leb_gt in L
    | apply Z.leb_le in L | apply Z.leb_gt in L];
    state_fields; try destruct (be <? sc)%Z; state_fields;
    repeat split; intros;
    first [reflexivity | congruence | lia].
Qed.

Lemma Quiet_before_hit (dt now : Q) (s : State) :
  let a := resolveOrbCollection
             (updateEnemies dt (maybeSpawnEnemies now (updatePlayer dt now s))) in
  phase a = phase s /\ running a = running s /\
  lives (difficulty a) = lives (difficulty s) /\
  player a = player (updatePlayer dt now s) /\
  bounds a = bounds s /\ settings_ a = settings_ s.
Proof.
  cbv zeta.
  destruct (updatePlayer_frame dt now s) as (Hp & Hr & Hd & _ & Hb & Hs & _).
  assert (Q : Quiet (updatePlayer dt now s)
                (resolveOrbCollection
                   (updateEnemies dt
                      (maybeSpawnEnemies now (updatePlayer dt now s))))).
  { eapply Quiet_trans; [apply maybeSpawnEnemies_quiet|].
    eapply Quiet_trans; [apply updateEnemies_quiet|].
    apply resolveOrbCollection_quiet. }
  destruct Q as [q1 q2 q3 q4 q5 q6].
  rewrite q1, q2, q3, q4, q5, q6, Hd.
  repeat split; assumption.
Qed.

(** X14: In one frame at most one life is lost, and never gained.  The frame
    ends the game (phase over, not running) exactly when that loss takes
    the lives to zero or below; otherwise phase and running flag are as
    before. *)
Theorem frame_lives_and_game_over (dt now : Q) (s : State) :
  let s' := runSystems dt now s in
  let l := lives (difficulty s) in
  let l' := lives (difficulty s') in
  (l' = l \/ l' = (l - 1)%Z) /\
  (l' = l -> phase s' = phase s /\ running s' = running s) /\
  (l' = (l - 1)%Z -> (1 < l)%Z -> phase s' = phase s /\ running s' = running s) /\
  (l' = (l - 1)%Z -> (l <= 1)%Z -> phase s' = over /\ running s' = false).
Proof.
  cbv zeta. unfold runSystems.
  destruct (Quiet_before_hit dt now s) as (Hp & Hr & Hl & _).
  set (a := resolveOrbCollection
              (updateEnemies dt
                 (maybeSpawnEnemies now (updatePlayer dt now s)))) in *.
  destruct (scaleDifficultyOnScore_quiet (resolveEnemyCollisions a))
    as [q1 q2 q3 _ _ _].
  rewrite q1, q2, q3.
  destruct (hit_outcome a) as (Hnone & Hhit & _).
  destruct (hitScan (player a) (enemies a)) as [es|] eqn:Hs.
  - destruct Hhit as (L & _ & Hover & Hlive & _); [congruence|].
    rewrite L, Hl.
    split; [right; reflexivity|].
    split; [intro; lia|].
    split.
    + intros _ H. destruct (Hlive ltac:(lia)) as [A B]. rewrite A, B.
      split; assumption.
    + intros _ H. apply Hover. lia.
  - rewrite (Hnone eq_refl).
    split; [left; exact Hl|].
    split; [intros _; split; assumption|].
    split; intros H; rewrite Hl in H; lia.
Qed.

(** X15: After a whole frame, knockback from a hit included, the velocity
    components are within [maxSpeed] of zero and, in a playfield that can hold
    the player, the position is inside its 2 px margins. *)
Theorem frame_keeps_player_in_range (dt now : Q) (s : State) :
  let p := player s in
  let p' := player (runSystems dt now s) in
  let m := p_maxSpeed p in
  0 <= m ->
  2 <= b_w (bounds s) - p_size p - 2 ->
  2 <= b_h (bounds s) - p_size p - 2 ->
  (- m <= p_vx p' <= m /\ - m <= p_vy p' <= m) /\
  2 <= p_x p' <= b_w (bounds s) - p_size p - 2 /\
  2 <= p_y p' <= b_h (bounds s) - p_size p - 2.
Proof.
  cbv zeta. intros Hm Hw Hh. unfold runSystems.
  destruct (Quiet_before_hit dt now s) as (_ & _ & _ & Hpl & _ & Hset).
  set (a := resolveOrbCollection
              (updateEnemies dt
                 (maybeSpawnEnemies now (updatePlayer dt now s)))) in *.
  rewrite (q_player _ _ (scaleDifficultyOnScore_quiet _)).
  destruct (updatePlayer_components dt now s Hm) as [[V1 V2] [V3 V4]].
  destruct (updatePlayer_position dt now s) as ([x Hx] & [y Hy]).
  assert (X : 2 <= p_x (player a) <= b_w (bounds s) - p_size (player s) - 2).
  { rewrite Hpl, Hx. split; [apply clamp_lower | apply clamp_upper, Hw]. }
  assert (Y : 2 <= p_y (player a) <= b_h (bounds s) - p_size (player s) - 2).
  { rewrite Hpl, Hy. split; [apply clamp_lower | apply clamp_upper, Hh]. }
  rewrite <- Hpl in V1, V2, V3, V4.
  destruct (hit_outcome a) as (Hnone & Hhit & _).
  destruct (hitScan (player a) (enemies a)) as [es|] eqn:Hs.
  - destruct Hhit as (_ & _ & _ & _ & Hrm & Hkb); [congruence|].
    destruct (reducedMotion (settings_ a)).
    + rewrite (Hrm eq_refl). repeat split; tauto.
    + rewrite (Hkb eq_refl). cbn [p_vx p_vy p_x p_y with_velocity].
      repeat split; try tauto; lra.
  - rewrite (Hnone eq_refl). repeat split; tauto.
Qed.

(** ** Invariants of a session *)

(** The running flag is set exactly in the play phase. *)
Definition Synced (s : State) : Prop :=
  running s = Phase_eqb (phase s) play.

Definition Healthy (s : State) : Prop :=
  Synced s /\ Tuned (difficulty s).

Lemma spawnEnemy_tuned (now : Q) (s : State) :
  Tuned (difficulty s) -> Tuned (difficulty (spawnEnemy now s)).
Proof.
  intro T. unfold spawnEnemy.
  destruct (find inactive (enemies s)); [|exact T].
  destruct (spawnAtEdge _ _ _ _ _). exact T.
Qed.

Lemma extraSpawn_tuned (lvl : Z) (p now : Q) (s : State) :
  Tuned (difficulty s) -> Tuned (difficulty (extraSpawn lvl p now s)).
Proof.
  intro T. unfold extraSpawn.
  destruct (lvl <=? _)%Z; [|exact T].
  destruct (Qltb _ _); [apply spawnEnemy_tuned|]; exact T.
Qed.

Lemma maybeSpawnEnemies_tuned (now : Q) (s : State) :
  Tuned (difficulty s) -> Tuned (difficulty (maybeSpawnEnemies now s)).
Proof.
  intro T. unfold maybeSpawnEnemies.
  destruct (spawnDue now s); [|exact T].
  now apply extraSpawn_tuned, extraSpawn_tuned, spawnEnemy_tuned.
Qed.

Lemma resolveOrbCollection_tuned (s : State) :
  Tuned (difficulty s) -> Tuned (difficulty (resolveOrbCollection s)).
Proof.
  intros (Hl & Hs & Hc & Hv & Hi & He & Hn).
  unfold resolveOrbCollection.
  destruct (aabbCollide _ _ _ _ _ _);
    [|repeat split; first [assumption | apply Hi | apply He]].
  rewrite placeOrb_difficulty. unfold Tuned.
  cbn [difficulty with_difficulty level score lives combo spawnIntervalMs
       enemyBaseSpeed nextLevelAt with_score with_combo].
  unfold gainedFor.
  repeat split; first [assumption | apply Hi | apply He | lia].
Qed.

Lemma resolveEnemyCollisions_tuned (s : State) :
  Tuned (difficulty s) -> Tuned (difficulty (resolveEnemyCollisions s)).
Proof.
  intros (Hl & Hs & Hc & Hv & Hi & He & Hn).
  destruct (hit_outcome s)
    as (Hnone & Hhit & El & Es & Ei & Ee & En & _).
  unfold Tuned. rewrite El, Es, Ei, Ee, En.
  destruct (hitScan (player s) (enemies s)) as [es|].
  - destruct Hhit as (L & C & _); [congruence|]. rewrite L, C.
    repeat split; first [assumption | apply Hi | apply He | lia].
  - rewrite (Hnone eq_refl).
    repeat split; first [assumption | apply Hi | apply He].
Qed.

Lemma runSystems_tuned (dt now : Q) (s : State) :
  Tuned (difficulty s) -> Tuned (difficulty (runSystems dt now s)).
Proof.
  intro T. unfold runSystems.
  apply scaleDifficultyOnScore_tuned, resolveEnemyCollisions_tuned,
    resolveOrbCollection_tuned.
  change (Tuned (difficulty
                   (maybeSpawnEnemies now (updatePlayer dt now s)))).
  apply maybeSpawnEnemies_tuned.
  destruct (updatePlayer_frame dt now s) as (_ & _ & -> & _). exact T.
Qed.

Lemma runSystems_phase (dt now : Q) (s : State) :
  let s' := runSystems dt now s in
  (phase s' = phase s /\ running s' = running s) \/
  (phase s' = over /\ running s' = false).
Proof.
  cbv zeta. unfold runSystems.
  destruct (Quiet_before_hit dt now s) as (Hp & Hr & _).
  set (a := resolveOrbCollection
              (updateEnemies dt
                 (maybeSpawnEnemies now (updatePlayer dt now s)))) in *.
  destruct (scaleDifficultyOnScore_quiet (resolveEnemyCollisions a))
    as [q1 q2 _ _ _ _].
  rewrite q1, q2.
  destruct (hit_outcome a) as (Hnone & Hhit & _).
  destruct (hitScan (player a) (enemies a)) as [es|].
  - destruct Hhit as (_ & _ & Hover & Hlive & _); [congruence|].
    destruct (Z_le_gt_dec (lives (difficulty a)) 1) as [L | L].
    + right. apply Hover, L.
    + left. destruct (Hlive ltac:(lia)) as [A B]. rewrite A, B.
      split; assumption.
  - rewrite (Hnone eq_refl). left. split; assumption.
Qed.

Lemma loop_healthy (now : Q) (s : State) : Healthy s -> Healthy (loop now s).
Proof.
  intros [Hs Ht].
  destruct (Phase_eqb (phase s) play) eqn:P; unfold Synced in Hs;
    rewrite P in Hs.
  - rewrite loop_in_play; [|destruct (phase s); (reflexivity || discriminate)
                           | exact Hs].
    split.
    + unfold Synced.
      destruct (runSystems_phase (frameDt now s) now
                  (with_time (mkTime now) s)) as [[A B] | [A B]];
        rewrite A, B; cbn [phase running with_time];
        [rewrite Hs, P|]; reflexivity.
    + apply runSystems_tuned. exact Ht.
  - rewrite loop_elsewhere; [split; [unfold Synced; now rewrite P|exact Ht]|].
    right. exact Hs.
Qed.

Lemma resetRunState_healthy (s : State) :
  Synced s -> Healthy (resetRunState s).
Proof.
  intro Hs.
  destruct (resetRunState_frame s) as (Hp & Hr & _).
  split.
  - unfold Synced. now rewrite Hp, Hr.
  - unfold resetRunState. rewrite placeOrb_difficulty.
    cbn [difficulty with_difficulty with_player with_enemies].
    unfold Tuned. cbn. repeat split; first [lia | lra].
Qed.

Lemma togglePause_healthy (now : Q) (s : State) :
  Healthy s -> Healthy (togglePause now s).
Proof.
  intros [Hs Ht]. unfold togglePause.
  destruct (Phase_eqb (phase s) play) eqn:P.
  - split; [reflexivity | exact Ht].
  - destruct (Phase_eqb (phase s) pause) eqn:P2; [|split; assumption].
    apply loop_healthy. split; [reflexivity | exact Ht].
Qed.

Lemma handle_healthy (ev : Event) (s : State) :
  Healthy s -> Healthy (handle ev s).
Proof.
  intros [Hs Ht].
  destruct ev; cbn [handle]; try (split; [exact Hs | exact Ht]);
    try (split; [reflexivity | exact Ht]).
  - apply loop_healthy. split; assumption.
  - unfold startGame. apply loop_healthy, resetRunState_healthy. reflexivity.
  - apply togglePause_healthy. split; assumption.
  - unfold setKey.
    destruct (_ && isDown); [apply togglePause_healthy; split; assumption|].
    destruct (negb _); split; assumption.
  - unfold resize. destruct (placeOrb_quiet (updateBounds w h s)) as [q1 q2 _ _ _ _].
    split.
    + unfold Synced. rewrite q1, q2. exact Hs.
    + rewrite placeOrb_difficulty. exact Ht.
Qed.

Lemma init_healthy (w h : Q) (stored : Z) (saved : option Settings) :
  Healthy (init w h stored saved state0).
Proof.
  split.
  - destruct saved; reflexivity.
  - destruct saved; unfold Tuned; cbn; repeat split; first [lia | lra].
Qed.

(** X16: In every state a session can reach (after [init], whatever events
    follow) the running flag is set exactly when the phase is play, and the
    run's numbers are in range: level at least 1, score and combo not
    negative, at most 3 lives, spawn interval within [420, 950], enemy base
    speed within [1.7, 4.2], next threshold at least 200. *)
Theorem session_stays_healthy
  (w h : Q) (stored : Z) (saved : option Settings) (evs : list Event) :
  let s := run evs (init w h stored saved state0) in
  (running s = true <-> phase s = play) /\
  Tuned (difficulty s).
Proof.
  cbv zeta.
  assert (H : Healthy (run evs (init w h stored saved state0))).
  { generalize (init_healthy w h stored saved).
    generalize (init w h stored saved state0).
    induction evs as [|ev evs IH]; intros s Hs; cbn; [exact Hs|].
    apply IH, handle_healthy, Hs. }
  destruct H as [Hs Ht]. split; [|exact Ht].
  unfold Synced in Hs. rewrite Hs.
  destruct (phase (run evs (init w h stored saved state0)));
    cbn; split; (reflexivity || discriminate).
Qed.

(** ** The frame clock *)

(** X17: The elapsed time of a frame is 0 when no frame has run yet
    ([lastFrame] still 0) and when the clock has not advanced, the true
    difference while that is at most 40 ms, and 40 ms beyond. *)
Theorem frame_elapsed_time (now : Q) (s : State) :
  let last := lastFrame (time s) in
  (last == 0 -> frameDt now s == 0) /\
  (now <= last -> frameDt now s == 0) /\
  (~ last == 0 -> last <= now -> now <= last + 40 ->
   frameDt now s == now - last) /\
  (~ last == 0 -> last + 40 <= now -> frameDt now s == 40).
Proof.
  cbv zeta. unfold frameDt, orElse, clamp, Math_max, Math_min.
  destruct (Qeq_bool (lastFrame (time s)) 0) eqn:E.
  - apply Qeq_bool_iff in E.
    assert (Z0 : Qmax 0 (Qmin 40 (now - now)) == 0).
    { rewrite (Q.min_r 40 (now - now)) by lra. apply Q.max_l. lra. }
    repeat split; intros; first [exact Z0 | contradiction].
  - assert (N : ~ lastFrame (time s) == 0)
      by (intro X; apply Qeq_bool_iff in X; congruence).
    repeat split; intros.
    + contradiction.
    + apply Q.max_l.
      eapply Qle_trans; [apply Q.le_min_r | lra].
    + rewrite (Q.min_r 40 (now - lastFrame (time s))) by lra.
      apply Q.max_r. lra.
    + rewrite (Q.min_l 40 (now - lastFrame (time s))) by lra.
      apply Q.max_r. lra.
Qed.

(** ** Phases and events *)

(** An event that cannot leave a non-play phase: a frame callback, or a key
    event other than pressing P. *)
Definition inert (ev : Event) : bool :=
  match ev with
  | EvFrame _ => true
  | EvKey k isDown _ => negb (String.eqb k "p" && isDown)
  | _ => false
  end.

(** X18: Outside the play phase frame callbacks and key events other than
    pressing P change nothing, however many arrive; and pressing P changes
    nothing either unless the phase is pause. *)
Theorem frozen_outside_play (s : State) (evs : list Event) :
  phase s <> play ->
  forallb inert evs = true ->
  run evs s = s /\
  (phase s <> pause -> forall now, handle (EvKey "p" true now) s = s).
Proof.
  intros Hp Hev. split.
  - induction evs as [|ev evs IH]; cbn; [reflexivity|].
    cbn in Hev. apply andb_true_iff in Hev as [He Hev].
    assert (H1 : handle ev s = s).
    { destruct ev; cbn in He; try discriminate; cbn [handle].
      - apply loop_elsewhere. left. exact Hp.
      - unfold setKey. apply negb_true_iff in He. rewrite He.
        destruct (phase s); cbn; try reflexivity. congruence. }
    rewrite H1. apply IH, Hev.
  - intros Hq now. cbn. unfold togglePause.
    destruct (phase s); cbn; try reflexivity; congruence.
Qed.

(** X19: Back from the settings screen always lands on the pause screen,
    wherever settings was opened from; resuming from there re-enters play on
    the current run as it stands.  So Settings, Back, Resume from the
    game-over screen runs a frame of the lost run, with the lives it ended
    on. *)
Theorem settings_back_then_resume (now : Q) (s : State) :
  let s1 := run [EvSettings; EvBackFromSettings] s in
  phase s1 = pause /\ running s1 = false /\
  difficulty s1 = difficulty s /\ enemies s1 = enemies s /\
  player s1 = player s /\
  run [EvSettings; EvBackFromSettings; EvPause now] s
  = runSystems (frameDt now s) now
      (with_time (mkTime now) (with_running true (with_phase play s))).
Proof.
  cbv zeta. cbn [run fold_left handle].
  unfold openScreen, showOverlayScreen.
  do 5 (split; [reflexivity|]).
  unfold togglePause. cbn [phase with_phase with_running Phase_eqb].
  rewrite loop_in_play by reflexivity.
  reflexivity.
Qed.

(** ** Reset and start *)

Lemma resetRunState_difficulty (s : State) :
  difficulty (resetRunState s)
  = mkDifficulty 1 0 3 0 (best (difficulty s)) 950 0 1.7 200.
Proof. unfold resetRunState. rewrite placeOrb_difficulty. reflexivity. Qed.

Lemma resetRunState_enemies (s : State) :
  enemies (resetRunState s) = map deactivate (enemies s).
Proof. unfold resetRunState. rewrite placeOrb_enemies. reflexivity. Qed.

Lemma activeCount_deactivated (es : list Enemy) :
  activeCount (map deactivate es) = 0%nat.
Proof.
  unfold activeCount. induction es as [|e es IH]; cbn; [reflexivity|exact IH].
Qed.

(** X20: [resetRunState] empties the pool without resizing it: every slot is
    inactive, parked at (-999, -999) with zero velocity, and keeps its size
    and type.  The player is put at the centre at rest with the dash
    available, and the best score is kept. *)
Theorem reset_clears_the_pool (s : State) :
  let s' := resetRunState s in
  activeCount (enemies s') = 0%nat /\
  length (enemies s') = length (enemies s) /\
  (forall k e, nth_error (enemies s) k = Some e ->
     nth_error (enemies s') k
     = Some (mkEnemy false (-999) (-999) 0 0 (e_size e) (e_type e))) /\
  p_x (player s') = b_w (bounds s) / 2 /\
  p_y (player s') = b_h (bounds s) / 2 /\
  p_vx (player s') = 0 /\ p_vy (player s') = 0 /\
  dash_lastDashAt (p_dash (player s')) = 0 /\
  best (difficulty s') = best (difficulty s).
Proof.
  cbv zeta. rewrite resetRunState_enemies, resetRunState_difficulty.
  split; [apply activeCount_deactivated|].
  split; [apply length_map|].
  split.
  { intros k e Hk. rewrite nth_error_map, Hk. reflexivity. }
  unfold resetRunState. rewrite placeOrb_player. cbn. repeat split.
Qed.

(** The spawner writes nothing in the difficulty record but the spawn
    time. *)
Lemma maybeSpawnEnemies_run_numbers (now : Q) (s : State) :
  let d := difficulty s in
  let d' := difficulty (maybeSpawnEnemies now s) in
  level d' = level d /\ score d' = score d /\ lives d' = lives d /\
  combo d' = combo d /\ best d' = best d /\ nextLevelAt d' = nextLevelAt d.
Proof.
  assert (S1 : forall t, with_lastSpawnAt 0 (difficulty (spawnEnemy now t))
                         = with_lastSpawnAt 0 (difficulty t)).
  { intro t. unfold spawnEnemy.
    destruct (find inactive (enemies t)); [|reflexivity].
    destruct (spawnAtEdge _ _ _ _ _). reflexivity. }
  assert (S2 : forall lvl p t,
             with_lastSpawnAt 0 (difficulty (extraSpawn lvl p now t))
             = with_lastSpawnAt 0 (difficulty t)).
  { intros lvl p t. unfold extraSpawn.
    destruct (lvl <=? _)%Z; [|reflexivity].
    destruct (Qltb _ _); [rewrite S1|]; reflexivity. }
  assert (E : with_lastSpawnAt 0 (difficulty (maybeSpawnEnemies now s))
              = with_lastSpawnAt 0 (difficulty s)).
  { unfold maybeSpawnEnemies.
    destruct (spawnDue now s); [|reflexivity].
    now rewrite !S2, S1. }
  cbv zeta.
  repeat split;
    [ apply (f_equal level) in E | apply (f_equal score) in E
    | apply (f_equal lives) in E | apply (f_equal combo) in E
    | apply (f_equal best) in E | apply (f_equal nextLevelAt) in E ];
    exact E.
Qed.

Lemma resolveOrbCollection_numbers (s : State) :
  let d := difficulty s in
  let d' := difficulty (resolveOrbCollection s) in
  level d' = level d /\ lives d' = lives d /\ best d' = best d /\
  nextLevelAt d' = nextLevelAt d /\
  (score d' = score d \/
   score d' = (score d + gainedFor (combo d + 1))%Z).
Proof.
  cbv zeta. unfold resolveOrbCollection.
  destruct (aabbCollide _ _ _ _ _ _).
  - rewrite placeOrb_difficulty. repeat split. right. reflexivity.
  - repeat split. left. reflexivity.
Qed.

Lemma hit_keeps_best (s : State) :
  (1 < lives (difficulty s))%Z ->
  best (difficulty (resolveEnemyCollisions s)) = best (difficulty s).
Proof.
  intro H.
  destruct s as [ph rn bd pl ob es0 sz df inp st tm dr].
  destruct df as [lv sc li co be si la eb nx].
  unfold resolveEnemyCollisions. state_fields. cbn [lives difficulty] in H.
  destruct (hitScan pl es0) as [es|]; [|reflexivity].
  state_fields.
  assert (L : (li - 1 <=? 0)%Z = false) by (apply Z.leb_gt; lia).
  destruct (reducedMotion st); state_fields; rewrite L; reflexivity.
Qed.

Lemma scaleDifficultyOnScore_idle (s : State) :
  (score (difficulty s) < nextLevelAt (difficulty s))%Z ->
  scaleDifficultyOnScore s = s.
Proof.
  intro H. unfold scaleDifficultyOnScore.
  apply Z.leb_gt in H. now rewrite H.
Qed.

(** A frame run on a freshly reset run: no level-up, at most one life
    lost, at most one pickup. *)
Lemma runSystems_on_fresh_run (dt now : Q) (r : State) (b : Z) :
  difficulty r = mkDifficulty 1 0 3 0 b 950 0 1.7 200 ->
  let s' := runSystems dt now r in
  let d' := difficulty s' in
  phase s' = phase r /\ running s' = running r /\
  level d' = 1%Z /\
  (lives d' = 3%Z \/ lives d' = 2%Z) /\
  (score d' = 0%Z \/ score d' = 22%Z) /\
  best d' = b.
Proof.
  intro Rd. cbv zeta. unfold runSystems.
  (* the systems up to the orb *)
  destruct (Quiet_before_hit dt now r) as (Ap & Ar & Al & _).
  destruct (updatePlayer_frame dt now r) as (_ & _ & Ud & _).
  destruct (maybeSpawnEnemies_run_numbers now (updatePlayer dt now r))
    as (M1 & M2 & M3 & M4 & M5 & M6).
  rewrite Ud, Rd in M1, M2, M3, M4, M5, M6.
  cbn [level score lives combo best nextLevelAt] in M1, M2, M3, M4, M5, M6.
  destruct (resolveOrbCollection_numbers
              (updateEnemies dt
                 (maybeSpawnEnemies now (updatePlayer dt now r))))
    as (O1 & O2 & O3 & O4 & O5).
  cbn [updateEnemies difficulty with_enemies] in O1, O2, O3, O4, O5.
  rewrite M1 in O1. rewrite M3 in O2. rewrite M5 in O3. rewrite M6 in O4.
  rewrite M2, M4 in O5.
  set (a := resolveOrbCollection
              (updateEnemies dt
                 (maybeSpawnEnemies now (updatePlayer dt now r)))) in *.
  assert (Os : score (difficulty a) = 0%Z \/ score (difficulty a) = 22%Z).
  { destruct O5 as [-> | ->]; [left | right]; reflexivity. }
  (* the hit, if any, takes one of three lives *)
  destruct (hit_outcome a)
    as (Hnone & Hhit & Hlv & Hsc & _ & _ & Hnx & _).
  assert (Hb : best (difficulty (resolveEnemyCollisions a)) = b).
  { rewrite hit_keeps_best by (rewrite O2; lia). exact O3. }
  assert (Hl : (lives (difficulty (resolveEnemyCollisions a)) = 3%Z \/
                lives (difficulty (resolveEnemyCollisions a)) = 2%Z) /\
               phase (resolveEnemyCollisions a) = phase r /\
               running (resolveEnemyCollisions a) = running r).
  { destruct (hitScan (player a) (enemies a)) as [es|].
    - destruct Hhit as (L & _ & _ & Hlive & _); [congruence|].
      destruct (Hlive ltac:(rewrite O2; lia)) as [P R].
      rewrite L, O2, P, R, Ap, Ar. repeat split.
      right. reflexivity.
    - rewrite (Hnone eq_refl), O2, Ap, Ar. repeat split.
      left. reflexivity. }
  destruct Hl as (Hl & Hph & Hrn).
  (* no level-up at 22 points *)
  rewrite scaleDifficultyOnScore_idle by (rewrite Hsc, Hnx, O4; lia).
  rewrite Hlv, Hsc, O1.
  repeat split; first [assumption | reflexivity].
Qed.

(** [with_time] writes the frame baseline and nothing else. *)
Lemma with_time_reads (t : Time) (x : State) :
  phase (with_time t x) = phase x /\
  running (with_time t x) = running x /\
  difficulty (with_time t x) = difficulty x /\
  time (with_time t x) = t.
Proof. repeat split. Qed.

(** X21: [startGame] always leaves a live run, whatever state it is called in:
    phase play and running, level 1, 2 or 3 lives, a score of 0 or 22, the
    best score untouched and the frame baseline at the current time. *)
Theorem startGame_gives_live_run (now : Q) (s : State) :
  let s' := startGame now s in
  let d' := difficulty s' in
  phase s' = play /\ running s' = true /\
  level d' = 1%Z /\
  (lives d' = 3%Z \/ lives d' = 2%Z) /\
  (score d' = 0%Z \/ score d' = 22%Z) /\
  best d' = best (difficulty s) /\
  lastFrame (time s') = now.
Proof.
  cbv zeta. unfold startGame.
  destruct (resetRunState_frame (with_running true (with_phase play s)))
    as (Hp & Hr & _).
  pose proof (resetRunState_difficulty (with_running true (with_phase play s)))
    as Hd.
  rewrite loop_in_play by (rewrite ?Hp, ?Hr; reflexivity).
  rewrite runSystems_time.
  match goal with
  | |- context [runSystems ?dt now (with_time ?t ?r)] =>
      destruct (with_time_reads t r) as (Wp & Wr & Wd & Wt);
      destruct (runSystems_on_fresh_run dt now (with_time t r)
                  (best (difficulty s)))
        as (A & B & C & D & E & F);
      [rewrite Wd; exact Hd|];
      rewrite Wp, Hp in A; rewrite Wr, Hr in B; rewrite Wt
  end.
  split; [exact A|]. split; [exact B|]. split; [exact C|].
  split; [exact D|]. split; [exact E|]. split; [exact F|].
  reflexivity.
Qed.

(** ** Orb placement *)

Lemma placeOrbTries_result (tries : nat) (s : State) :
  let s' := placeOrbTries tries s in
  let o' := orb s' in
  let p := player s in
  let w := b_w (bounds s) in
  let h := b_h (bounds s) in
  (130 * 130 <= distSq (o_x o') (o_y o') (p_x p) (p_y p) \/
   (o_x o' = clamp (p_x p + 150) 24 (w - 24) /\
    o_y o' = clamp (p_y p + 80) 24 (h - 24))) /\
  o_size o' = o_size (orb s) /\
  (drawn s <= drawn s' <= drawn s + 2 * tries)%nat /\
  ((forall n, 0 <= Math_random n < 1) -> 48 <= w -> 48 <= h ->
   24 <= o_x o' <= w - 24 /\ 24 <= o_y o' <= h - 24).
Proof.
  revert s. induction tries as [|k IH]; intro s; cbv zeta.
  - cbn [placeOrbTries].
    cbn [orb with_orb with_orb_position o_x o_y o_size drawn].
    split; [right; split; reflexivity|].
    split; [reflexivity|]. split; [lia|].
    intros _ Hw Hh.
    repeat split; first [apply clamp_lower | apply clamp_upper; lra].
  - cbn [placeOrbTries].
    destruct (Qgeb _ _) eqn:E.
    + cbn [orb with_orb with_orb_position o_x o_y o_size drawn with_drawn].
      apply Qgeb_ge in E.
      split; [left; exact E|].
      split; [reflexivity|]. split; [lia|].
      intros Hr Hw Hh.
      split; apply rand_within; first [apply Hr | lra].
    + specialize (IH (with_drawn (S (S (drawn s))) s)). cbv zeta in IH.
      cbn [player bounds orb drawn with_drawn] in IH.
      destruct IH as (A & B & [C1 C2] & D).
      split; [exact A|]. split; [exact B|]. split; [lia|]. exact D.
Qed.

(** X22: [placeOrb] ends after at most 50 tries, that is at most 100 random
    numbers.  The orb it leaves is at least 130 px from the player, or else
    at the fallback spot (player + (150, 80), clamped to the 24 px margins);
    with random numbers in [0, 1) and a playfield of at least 48 px each way
    it is inside the margins in both cases. *)
Theorem orb_placement (s : State) :
  let s' := placeOrb s in
  let o' := orb s' in
  let p := player s in
  let w := b_w (bounds s) in
  let h := b_h (bounds s) in
  (130 * 130 <= distSq (o_x o') (o_y o') (p_x p) (p_y p) \/
   (o_x o' = clamp (p_x p + 150) 24 (w - 24) /\
    o_y o' = clamp (p_y p + 80) 24 (h - 24))) /\
  (drawn s <= drawn s' <= drawn s + 100)%nat /\
  ((forall n, 0 <= Math_random n < 1) -> 48 <= w -> 48 <= h ->
   24 <= o_x o' <= w - 24 /\ 24 <= o_y o' <= h - 24).
Proof.
  cbv zeta. unfold placeOrb.
  destruct (placeOrbTries_result 50 s) as (A & _ & C & D).
  split; [exact A|]. split; [|exact D].
  change (2 * 50)%nat with 100%nat in C. exact C.
Qed.

(** ** Knockback *)

Lemma hitScan_some (p : Player) (es : list Enemy) :
  existsb (strikes p) es = true -> hitScan p es <> None.
Proof.
  induction es as [|e es IH]; cbn; [discriminate|].
  unfold strikes at 1.
  destruct (e_active e); cbn.
  - destruct (aabbCollide _ _ _ _ _ _); cbn; [discriminate|].
    intro H. destruct (hitScan p es); [discriminate | now apply IH].
  - intro H. destruct (hitScan p es); [discriminate | now apply IH].
Qed.

(** X23: A hit never moves the player.  It turns the velocity round and damps
    it to 70 percent, unless the reduced-motion setting is on, in which case
    the velocity is left alone. *)
Theorem hit_knockback (s : State) :
  existsb (strikes (player s)) (enemies s) = true ->
  let p := player s in
  let p' := player (resolveEnemyCollisions s) in
  p_x p' = p_x p /\ p_y p' = p_y p /\
  (reducedMotion (settings_ s) = false ->
   p_vx p' = p_vx p * -0.7 /\ p_vy p' = p_vy p * -0.7) /\
  (reducedMotion (settings_ s) = true ->
   p_vx p' = p_vx p /\ p_vy p' = p_vy p).
Proof.
  intro H. cbv zeta. apply hitScan_some in H.
  destruct (hit_outcome s) as (_ & Hhit & _).
  destruct (Hhit H) as (_ & _ & _ & _ & Hrm & Hkb).
  destruct (reducedMotion (settings_ s)).
  - rewrite (Hrm eq_refl). repeat split; intros; discriminate.
  - rewrite (Hkb eq_refl). repeat split; intros; discriminate.
Qed.

(** ** Progress within a frame *)

(** X24: In one frame of a run whose combo is not negative the score never goes
    down and rises by at most 50 (one pickup), the level rises by at most 1,
    and a level-up happens only on a score that has reached the
    threshold. *)
Theorem frame_progress (dt now : Q) (s : State) :
  let d := difficulty s in
  let d' := difficulty (runSystems dt now s) in
  (0 <= combo d)%Z ->
  (score d <= score d' <= score d + 50)%Z /\
  (level d <= level d' <= level d + 1)%Z /\
  (level d' = (level d + 1)%Z -> (nextLevelAt d <= score d')%Z).
Proof.
  cbv zeta. intro Hc. unfold runSystems.
  destruct (updatePlayer_frame dt now s) as (_ & _ & Ud & _).
  destruct (maybeSpawnEnemies_run_numbers now (updatePlayer dt now s))
    as (M1 & M2 & _ & M4 & _ & M6).
  rewrite Ud in M1, M2, M4, M6.
  destruct (resolveOrbCollection_numbers
              (updateEnemies dt
                 (maybeSpawnEnemies now (updatePlayer dt now s))))
    as (O1 & _ & _ & O4 & O5).
  cbn [updateEnemies difficulty with_enemies] in O1, O4, O5.
  rewrite M1 in O1. rewrite M6 in O4. rewrite M2, M4 in O5.
  set (a := resolveOrbCollection
              (updateEnemies dt
                 (maybeSpawnEnemies now (updatePlayer dt now s)))) in *.
  destruct (hit_outcome a) as (_ & _ & Hlv & Hsc & _ & _ & Hnx & _).
  set (h := resolveEnemyCollisions a) in *.
  assert (Hs : (score (difficulty s) <= score (difficulty h)
                <= score (difficulty s) + 50)%Z).
  { rewrite Hsc. unfold gainedFor in O5. destruct O5 as [-> | ->]; lia. }
  unfold scaleDifficultyOnScore.
  destruct (nextLevelAt (difficulty h) <=? score (difficulty h))%Z eqn:E;
    cbn [difficulty with_difficulty level score].
  - apply Z.leb_le in E. rewrite Hlv, O1.
    split; [exact Hs|]. split; [lia|].
    intros _. rewrite <- O4, <- Hnx. exact E.
  - rewrite Hlv, O1. split; [exact Hs|]. split; [lia|]. intro X. lia.
Qed.

End More.

(* ------------------------------------------------------------------ *)
(** ** Worked instances of the further properties *)

Lemma randomFrom_unit (l : list Q) :
  forallb (fun q => Qle_bool 0 q && Qltb q 1) l = true ->
  forall n, 0 <= randomFrom l n < 1.
Proof.
  unfold randomFrom. induction l as [|q l IH]; intros H n.
  - destruct n; cbn; lra.
  - cbn in H. apply andb_true_iff in H as [Hq Hl].
    apply andb_true_iff in Hq as [H0 H1].
    apply Qle_bool_iff in H0. apply Qltb_lt in H1.
    destruct n; cbn; [split; assumption | apply IH, Hl].
Qed.

(** A diagonal dash in the 800 x 600 playfield keeps the player inside. *)
Lemma player_in_playfield_after_dash :
  2 <= p_x (player (@updatePlayer (demo []) 16.67 1000 dashDiagonal)) <= 774 /\
  2 <= p_y (player (@updatePlayer (demo []) 16.67 1000 dashDiagonal)) <= 574.
Proof.
  destruct (@player_stays_in_playfield (demo []) 16.67 1000 dashDiagonal)
    as ([A B] & [C D]); try by_computation.
  repeat split; first [exact A | exact C | (eapply Qle_trans; [eassumption|]; by_computation)].
Defined.

(** A dash at t = 1000 ms, the key pressed again at 1500 ms: nothing
    happens, and [lastDashAt] stays at 1000. *)
Lemma second_dash_too_early :
  player (@updatePlayer (demo []) 16.67 1500 dashAgain)
  = player (@updatePlayer (demo []) 16.67 1500 afterDash) /\
  dash_lastDashAt (p_dash (player (@updatePlayer (demo []) 16.67 1500 dashAgain)))
  = 1000.
Proof.
  destruct (@dash_on_cooldown_ignored (demo []) 16.67 1500 dashAgain)
    as (A & B & _); [by_computation|].
  split; [rewrite A; reflexivity | rewrite B; reflexivity].
Defined.

(** The dash at t = 1000 ms succeeds, and one at 1899 ms is still
    ignored. *)
Lemma dash_then_wait :
  dash_lastDashAt (p_dash (player afterDash)) = 1000 /\
  @updatePlayer (demo []) 16.67 1899 dashAgain
  = @updatePlayer (demo []) 16.67 1899
      (with_input (with_i_dash false (input afterDash)) afterDash).
Proof.
  destruct (@dash_starts_cooldown (demo []) 16.67 1000 dashDiagonal)
    as (A & B); [reflexivity | by_computation |].
  split; [exact A|].
  apply (B 16.67 1899 (input afterDash)). by_computation.
Defined.

(** In pointer mode holding every direction key changes nothing. *)
Lemma keys_ignored_in_pointer_mode :
  player (@updatePlayer (demo []) 16.67 1000
            (with_input (with_dirs true true true true (input pointerMode))
               pointerMode))
  = player (@updatePlayer (demo []) 16.67 1000 pointerMode).
Proof.
  exact (@pointer_mode_ignores_keys (demo []) 16.67 1000 pointerMode
           true true true true eq_refl eq_refl).
Defined.

(** The second slot of the mobbed pool survives a tick of 16.67 ms and
    has moved one pixel to the right. *)
Lemma tick_moves_second_slot :
  exists e',
    nth_error (enemies (updateEnemies 16.67 mobbed)) 1 = Some e' /\
    e_active e' = true /\ e_x e' == 206.
Proof.
  destruct (tick_only_moves_or_retires 16.67 mobbed 1 (flying 205 205) eq_refl)
    as (e' & Hk & _ & Hact & _).
  exists e'. split; [exact Hk|].
  assert (Ha : e_active e' = true).
  { vm_compute in Hk. injection Hk as <-. reflexivity. }
  split; [exact Ha|].
  destruct (Hact Ha) as (_ & Hx & _). rewrite Hx. by_computation.
Defined.

(** The first spawn into the empty pool. *)
Lemma first_spawn_counts_one :
  activeCount (enemies (@spawnEnemy (demo []) 1000 ready)) = 1%nat /\
  lastSpawnAt (difficulty (@spawnEnemy (demo []) 1000 ready)) = 1000.
Proof.
  destruct (@spawn_activates_one (demo []) 1000 ready) as (A & B & _);
    [discriminate|].
  split; [rewrite A; reflexivity | exact B].
Defined.

(** With random results 0.5, 0.1, 0.5, 0.5 the spawn uses four of them. *)
Lemma spawn_uses_four_draws :
  drawn (@spawnEnemy (demo [0.5; 0.1; 0.5; 0.5]) 1000 ready) = 4%nat.
Proof.
  destruct (@spawn_lands_outside_an_edge (demo [0.5; 0.1; 0.5; 0.5]) 1000
              ready blankEnemy)
    as (e' & _ & D & _).
  - apply (randomFrom_unit [0.5; 0.1; 0.5; 0.5]). reflexivity.
  - by_computation.
  - by_computation.
  - reflexivity.
  - rewrite D. reflexivity.
Defined.

(** The first pickup of a streak is worth 22 points. *)
Lemma first_pickup_in_range :
  let gain :=
    Z.sub (score (difficulty (@resolveOrbCollection (demo [0.9; 0.9]) atOrb)))
          (score (difficulty atOrb)) in
  (22 <= gain <= 50)%Z.
Proof.
  destruct (@pickup_gain_range (demo [0.9; 0.9]) atOrb) as (A & _);
    [reflexivity | by_computation | exact A].
Defined.

(** The overshooting score raises the threshold and shortens the
    interval. *)
Lemma level_up_tightens :
  (200 < nextLevelAt (difficulty (scaleDifficultyOnScore overshoot)))%Z /\
  spawnIntervalMs (difficulty (scaleDifficultyOnScore overshoot)) <= 950.
Proof.
  assert (T : Tuned (difficulty overshoot)).
  { unfold Tuned. cbn. repeat split; by_computation. }
  destruct (level_up_is_monotone overshoot T) as (_ & A & _ & _ & _ & B).
  split; [apply B; by_computation | exact A].
Defined.

(** A whole frame around the diagonal dash. *)
Lemma frame_after_dash_in_range :
  - (5.2) <= p_vx (player (@runSystems (demo []) 16.67 1000 dashDiagonal)) <= 5.2 /\
  2 <= p_x (player (@runSystems (demo []) 16.67 1000 dashDiagonal)) <= 774.
Proof.
  destruct (@frame_keeps_player_in_range (demo []) 16.67 1000 dashDiagonal)
    as ([A _] & [B C] & _); try by_computation.
  split; [exact A|].
  split; [exact B | eapply Qle_trans; [exact C | by_computation]].
Defined.

(** Frames and movement keys while paused. *)
Lemma paused_game_is_frozen :
  @run (demo [])
    [EvFrame 2000; EvKey "w" true 2010; EvFrame 2016; EvKey "p" false 2020]
    pausedGame
  = pausedGame.
Proof.
  destruct (@frozen_outside_play (demo []) pausedGame
              [EvFrame 2000; EvKey "w" true 2010; EvFrame 2016;
               EvKey "p" false 2020]) as (A & _);
    [by_computation | reflexivity | exact A].
Defined.

(** The mobbed player moving at (3, -2) is sent back at (-2.1, 1.4). *)
Lemma knockback_instance :
  p_vx (player (resolveEnemyCollisions mobbedMoving)) == -2.1 /\
  p_vy (player (resolveEnemyCollisions mobbedMoving)) == 1.4 /\
  p_x (player (resolveEnemyCollisions mobbedMoving)) = 200.
Proof.
  destruct (hit_knockback mobbedMoving eq_refl) as (X & _ & K & _).
  destruct (K eq_refl) as (Vx & Vy).
  split; [rewrite Vx; by_computation|].
  split; [rewrite Vy; by_computation | rewrite X; reflexivity].
Defined.

(** A whole frame with the player on the orb: at most 50 points. *)
Lemma frame_on_orb_progress :
  let d' := difficulty (@runSystems (demo [0.9; 0.9]) 16.67 1000 atOrb) in
  (0 <= score d' <= 50)%Z /\ (1 <= level d' <= 2)%Z.
Proof.
  cbv zeta.
  destruct (@frame_progress (demo [0.9; 0.9]) 16.67 1000 atOrb)
    as (A & B & _); [by_computation|].
  assert (E : score (difficulty atOrb) = 0%Z) by reflexivity.
  assert (L : level (difficulty atOrb) = 1%Z) by reflexivity.
  rewrite E in A. rewrite L in B. split; lia.
Defined.
